(** * phenoai.logger: a shallow embedding and its properties

    The module [src/phenoai/logger.py] is a thin facade over Python's
    [logging] package.  Its whole state lives in module globals
    ([__streamchannel__], [__filechannel__], [__colouredstream__],
    [__indentlevel__]) and in the objects of the [logging] package it
    mutates (the logger named ["bsmai_logger"], its handler list, the
    handler objects, [logging.root.manager.disable]).

    The embedding threads one [state] record through every function.
    Handler objects live in a store ([gmap nat handler]); the module
    globals and the logger's handler list hold references (keys of the
    store), so that [setLevel] through [__streamchannel__] is seen by the
    logger, as in Python.  A [LogRecord] is one value threaded through
    all handlers of one call, so that a filter's mutation of
    [record.msg] is seen by the handlers that run after it. *)

From Stdlib Require Import ZArith String Ascii List Lia.
From stdpp Require Import base option list gmap strings.
Import ListNotations.

Local Open Scope string_scope.

(** ** Python values reaching [set_indent] *)

(** [isinstance(lvl, int)] holds for [int] and for [bool] (a subclass of
    [int]); [isinstance(lvl, str)] holds for [PyStr] alone; [PyObject]
    stands for a value of any other type (a float, a list, ...). *)
Inductive pyval :=
  | PyNone
  | PyInt (z : Z)
  | PyBool (b : bool)
  | PyStr (s : string)
  | PyObject (tag : nat).

Definition isinstance_int (v : pyval) : bool :=
  match v with PyInt _ | PyBool _ => true | _ => false end.

(** The numeric value of an [int] instance ([True] is 1, [False] is 0). *)
Definition int_value (v : pyval) : Z :=
  match v with
  | PyInt z => z
  | PyBool b => Z.b2z b
  | _ => 0%Z
  end.

(** ** Exceptions and the result of a call *)

Inductive exn :=
  | Exception (msg : string)
  | OSError (path : string)
  | OverflowError (msg : string).

Inductive result (A : Type) :=
  | Ok (a : A)
  | Raise (e : exn).
Arguments Ok {A} a.
Arguments Raise {A} e.

(** Sequencing: an exception of the first call skips the rest (stdpp's
    [x ← r; k] notation). *)
#[export] Instance result_bind : MBind result := fun A B k r =>
  match r with
  | Ok a => k a
  | Raise e => Raise e
  end.

#[export] Instance result_ret : MRet result := fun A a => Ok a.

(** ** Severities of the [logging] package *)

Module logging.

Definition NOTSET : Z := 0.
Definition DEBUG : Z := 10.
Definition INFO : Z := 20.
Definition WARNING : Z := 30.
Definition ERROR : Z := 40.
Definition CRITICAL : Z := 50.

End logging.

(** The five severities the facade emits at. *)
Inductive severity := Debug | Info | Warning | Error | Critical.

Definition levelno_of (sev : severity) : Z :=
  match sev with
  | Debug => logging.DEBUG
  | Info => logging.INFO
  | Warning => logging.WARNING
  | Error => logging.ERROR
  | Critical => logging.CRITICAL
  end.

(** [logging.getLevelName] on the five standard levels. *)
Definition levelname_of (sev : severity) : string :=
  match sev with
  | Debug => "DEBUG"
  | Info => "INFO"
  | Warning => "WARNING"
  | Error => "ERROR"
  | Critical => "CRITICAL"
  end.

(** ** String primitives of Python used by the module *)

Fixpoint copies (s : string) (k : nat) : string :=
  match k with
  | O => EmptyString
  | S k' => s +:+ copies s k'
  end.

(** The largest [Py_ssize_t] of a 64-bit build, and the smallest. *)
Definition PY_SSIZE_T_MAX : Z := 9223372036854775807.
Definition PY_SSIZE_T_MIN : Z := -9223372036854775808.

(** [s * n] on a [str].  The count is first converted to a [Py_ssize_t],
    which raises [OverflowError] when it does not fit, whatever its sign.
    Then the result is the empty string when [n < 1]; a repetition longer
    than [PY_SSIZE_T_MAX] characters raises [OverflowError] too.  Memory
    is taken as unbounded: a repetition within that limit is built. *)
Definition str_mul (s : string) (n : Z) : result string :=
  if ((n <? PY_SSIZE_T_MIN) || (PY_SSIZE_T_MAX <? n))%Z then
    Raise (OverflowError "cannot fit 'int' into an index-sized integer")
  else if (n <? 1)%Z then Ok EmptyString
  else if (PY_SSIZE_T_MAX / n <? Z.of_nat (String.length s))%Z then
    Raise (OverflowError "repeated string is too long")
  else Ok (copies s (Z.to_nat n)).

Definition spaces (k : nat) : string := copies " " k.

(** The format spec [:<w]: pad on the right up to width [w]. *)
Definition format_left (w : nat) (s : string) : string :=
  s +:+ spaces (w - String.length s).

(** The format spec [:^w]: the left padding is half the total padding,
    rounded down; the rest goes to the right. *)
Definition format_center (w : nat) (s : string) : string :=
  let total := w - String.length s in
  let lpad := Nat.div total 2 in
  spaces lpad +:+ s +:+ spaces (total - lpad).

(** The escape character, ["\033"] in the source. *)
Definition ESC : ascii := "027"%char.
Definition esc (s : string) : string := String ESC s.

(** ** Log records *)

(** The attributes of a [LogRecord] the module reads or writes.
    [levellabel] and [filteredmessage] do not exist on a fresh record;
    [ColourFilter] adds them. *)
Record LogRecord := mkRecord {
  levelno : Z;
  levelname : string;
  msg : string;
  levellabel : option string;
  filteredmessage : option string
}.

Definition set_msg (r : LogRecord) (m : string) : LogRecord :=
  mkRecord (levelno r) (levelname r) m (levellabel r) (filteredmessage r).

Definition set_label (r : LogRecord) (lab fm : string) : LogRecord :=
  mkRecord (levelno r) (levelname r) (msg r) (Some lab) (Some fm).

Definition makeRecord (sev : severity) (m : string) : LogRecord :=
  mkRecord (levelno_of sev) (levelname_of sev) m None None.

(** ** Filters, formatters, handlers *)

Inductive log_filter := IndentFilter | ColourFilter.

Inductive field := Fasctime | Flevellabel | Ffilteredmessage | Flevelname | Fmessage.

Inductive fmt_spec := Plain | PadLeft (w : nat) | PadCenter (w : nat).

Inductive fmt_item :=
  | Lit (s : string)
  | Field (f : field) (spec : fmt_spec).

(** ["{asctime:<23} | {levellabel} | {filteredmessage}"] *)
Definition stream_format : list fmt_item :=
  [Field Fasctime (PadLeft 23); Lit " | "; Field Flevellabel Plain; Lit " | ";
   Field Ffilteredmessage Plain].

(** ["{asctime:<23} | {levelname:^8} | {message}"] *)
Definition file_format : list fmt_item :=
  [Field Fasctime (PadLeft 23); Lit " | "; Field Flevelname (PadCenter 8); Lit " | ";
   Field Fmessage Plain].

(** The default formatter of [logging], ["%(message)s"], used by a handler
    that has none of its own. *)
Definition default_format : list fmt_item := [Field Fmessage Plain].

Inductive handler_kind :=
  | StreamHandler
  | FileHandler (path : string).

Record handler := mkHandler {
  h_kind : handler_kind;
  h_level : Z;
  h_filters : list log_filter;
  h_formatter : option (list fmt_item)
}.

Definition setLevel (lvl : Z) (h : handler) : handler :=
  mkHandler (h_kind h) lvl (h_filters h) (h_formatter h).

Definition addFilter (f : log_filter) (h : handler) : handler :=
  mkHandler (h_kind h) (h_level h) (h_filters h ++ [f]) (h_formatter h).

Definition setFormatter (f : list fmt_item) (h : handler) : handler :=
  mkHandler (h_kind h) (h_level h) (h_filters h) (Some f).

(** A handler as its constructor leaves it: level [NOTSET], no filter, no
    formatter. *)
Definition new_handler (k : handler_kind) : handler :=
  mkHandler k logging.NOTSET [] None.

Definition is_stream (h : handler) : bool :=
  match h_kind h with StreamHandler => true | FileHandler _ => false end.

Definition is_file (h : handler) : bool :=
  match h_kind h with StreamHandler => false | FileHandler _ => true end.

(** ** The state the module reads and writes *)

(** The four module globals that change, the store of handler objects,
    and the part of the [logging] package the module touches: the level
    and handler list of the logger ["bsmai_logger"], and the manager's
    [disable] threshold set by [logging.disable]. *)
Record state := mkState {
  store : gmap nat handler;
  next_ref : nat;
  __streamchannel__ : option nat;
  __filechannel__ : option nat;
  __colouredstream__ : bool;
  __indentlevel__ : Z;
  logger_level : Z;
  logger_handlers : list nat;
  manager_disable : Z
}.

Definition __streamchannel_defaultlvl__ : Z := logging.INFO.
Definition __filechannel_defaultlvl__ : Z := logging.INFO.
Definition __indentunit__ : string := "  ".

Definition set_store (m : gmap nat handler) (s : state) : state :=
  mkState m (next_ref s) (__streamchannel__ s) (__filechannel__ s)
    (__colouredstream__ s) (__indentlevel__ s) (logger_level s)
    (logger_handlers s) (manager_disable s).

Definition set_streamchannel (c : option nat) (s : state) : state :=
  mkState (store s) (next_ref s) c (__filechannel__ s)
    (__colouredstream__ s) (__indentlevel__ s) (logger_level s)
    (logger_handlers s) (manager_disable s).

Definition set_filechannel (c : option nat) (s : state) : state :=
  mkState (store s) (next_ref s) (__streamchannel__ s) c
    (__colouredstream__ s) (__indentlevel__ s) (logger_level s)
    (logger_handlers s) (manager_disable s).

Definition set_colouredstream (b : bool) (s : state) : state :=
  mkState (store s) (next_ref s) (__streamchannel__ s) (__filechannel__ s)
    b (__indentlevel__ s) (logger_level s)
    (logger_handlers s) (manager_disable s).

Definition set_indentlevel (n : Z) (s : state) : state :=
  mkState (store s) (next_ref s) (__streamchannel__ s) (__filechannel__ s)
    (__colouredstream__ s) n (logger_level s)
    (logger_handlers s) (manager_disable s).

Definition set_logger_level (l : Z) (s : state) : state :=
  mkState (store s) (next_ref s) (__streamchannel__ s) (__filechannel__ s)
    (__colouredstream__ s) (__indentlevel__ s) l
    (logger_handlers s) (manager_disable s).

Definition set_logger_handlers (hs : list nat) (s : state) : state :=
  mkState (store s) (next_ref s) (__streamchannel__ s) (__filechannel__ s)
    (__colouredstream__ s) (__indentlevel__ s) (logger_level s)
    hs (manager_disable s).

Definition set_manager_disable (l : Z) (s : state) : state :=
  mkState (store s) (next_ref s) (__streamchannel__ s) (__filechannel__ s)
    (__colouredstream__ s) (__indentlevel__ s) (logger_level s)
    (logger_handlers s) l.

(** A new object: a fresh reference, and the object in the store. *)
Definition alloc (h : handler) (s : state) : nat * state :=
  (next_ref s,
   mkState (<[next_ref s := h]> (store s)) (S (next_ref s))
     (__streamchannel__ s) (__filechannel__ s)
     (__colouredstream__ s) (__indentlevel__ s) (logger_level s)
     (logger_handlers s) (manager_disable s)).

(** A method call that mutates the object behind a reference. *)
Definition update (ref : nat) (f : handler -> handler) (s : state) : state :=
  set_store (alter f ref (store s)) s.

(** [list.remove(x)]: drops the first occurrence. *)
Fixpoint remove_first (x : nat) (l : list nat) : list nat :=
  match l with
  | [] => []
  | y :: l' => if Nat.eqb x y then l' else y :: remove_first x l'
  end.

(** [Logger.addHandler]: appends unless the handler is in the list. *)
Definition addHandler (ref : nat) (s : state) : state :=
  if existsb (Nat.eqb ref) (logger_handlers s) then s
  else set_logger_handlers (logger_handlers s ++ [ref]) s.

(** [Logger.removeHandler]: removes the handler if it is in the list. *)
Definition removeHandler (ref : nat) (s : state) : state :=
  if existsb (Nat.eqb ref) (logger_handlers s)
  then set_logger_handlers (remove_first ref (logger_handlers s)) s
  else s.

(** ** The two filters *)

Definition ColourFilter_filter (s : state) (record : LogRecord) : LogRecord :=
  if __colouredstream__ s then
    if (levelno record =? logging.DEBUG)%Z then
      set_label record (" " +:+ esc "[94mDEBUG" +:+ esc "[0m  ") (msg record)
    else if (levelno record =? logging.INFO)%Z then
      set_label record "  INFO  " (msg record)
    else if (levelno record =? logging.WARNING)%Z then
      set_label record (esc "[93mWARNING" +:+ esc "[0m ") (msg record)
    else if (levelno record =? logging.ERROR)%Z then
      set_label record (" " +:+ esc "[91mERROR" +:+ esc "[0m  ") (msg record)
    else if (levelno record =? logging.CRITICAL)%Z then
      set_label record
        (esc "[1m" +:+ esc "[91mCRITICAL" +:+ esc "[0m" +:+ esc "[0m")
        (esc "[91m" +:+ msg record +:+ esc "[0m")
    else record
  else
    set_label record (format_center 8 (levelname record)) (msg record).

(** The filter raises what [__indentunit__ * __indentlevel__] raises. *)
Definition IndentFilter_filter (s : state) (record : LogRecord) : result LogRecord :=
  prefix ← str_mul __indentunit__ (__indentlevel__ s);
  Ok (set_msg record (prefix +:+ msg record)).

Definition run_filter (s : state) (f : log_filter) (record : LogRecord) : result LogRecord :=
  match f with
  | IndentFilter => IndentFilter_filter s record
  | ColourFilter => Ok (ColourFilter_filter s record)
  end.

(** ** What [logging] does with a record *)

(** What a handler does with one record: it writes a line to its sink, or
    formatting fails on a missing attribute and [Handler.handleError]
    reports it instead. *)
Inductive event :=
  | Wrote (sink : handler_kind) (line : string)
  | FormatError (sink : handler_kind).

Definition field_value (asctime : string) (record : LogRecord) (f : field) : option string :=
  match f with
  | Fasctime => Some asctime
  | Flevellabel => levellabel record
  | Ffilteredmessage => filteredmessage record
  | Flevelname => Some (levelname record)
  | Fmessage => Some (msg record)
  end.

Definition apply_spec (spec : fmt_spec) (v : string) : string :=
  match spec with
  | Plain => v
  | PadLeft w => format_left w v
  | PadCenter w => format_center w v
  end.

Fixpoint format (items : list fmt_item) (asctime : string) (record : LogRecord) : option string :=
  match items with
  | [] => Some EmptyString
  | Lit l :: rest =>
      match format rest asctime record with
      | Some tail => Some (l +:+ tail)
      | None => None
      end
  | Field f spec :: rest =>
      match field_value asctime record f, format rest asctime record with
      | Some v, Some tail => Some (apply_spec spec v +:+ tail)
      | _, _ => None
      end
  end.

(** [Filterer.filter]: every filter of the handler in turn, on the one
    record object.  Both filters of the module return the record, which is
    truthy, so no filter rejects it; an exception of a filter ends the
    loop. *)
Fixpoint run_filters (s : state) (fs : list log_filter) (record : LogRecord)
  : result LogRecord :=
  match fs with
  | [] => Ok record
  | f :: fs' =>
      match run_filter s f record with
      | Ok record' => run_filters s fs' record'
      | Raise e => Raise e
      end
  end.

(** [Handler.handle]: filters, then format and write.  The record comes
    back as the filters left it.  The filters run outside the [try] of
    [Handler.emit]: their exception leaves [handle], whereas a failure of
    the formatter is caught and reported by [handleError]. *)
Definition Handler_handle (s : state) (asctime : string) (h : handler) (record : LogRecord)
  : result (LogRecord * event) :=
  record' ← run_filters s (h_filters h) record;
  let items := match h_formatter h with Some f => f | None => default_format end in
  Ok (record',
      match format items asctime record' with
      | Some line => Wrote (h_kind h) line
      | None => FormatError (h_kind h)
      end).

(** The loop of [Logger.callHandlers] over the logger's own handlers: the
    events of the handlers that ran, and the exception that ended the loop
    if one did. *)
Fixpoint callHandlers_loop (s : state) (asctime : string) (refs : list nat)
  (record : LogRecord) : list event * option exn :=
  match refs with
  | [] => ([], None)
  | ref :: rest =>
      match store s !! ref with
      | Some h =>
          if (h_level h <=? levelno record)%Z then
            match Handler_handle s asctime h record with
            | Ok (record', ev) =>
                let '(evs, e) := callHandlers_loop s asctime rest record' in
                (ev :: evs, e)
            | Raise e => ([], Some e)
            end
          else callHandlers_loop s asctime rest record
      | None => callHandlers_loop s asctime rest record
      end
  end.

(** [logging.lastResort]: a stderr handler at level WARNING, used when no
    handler was found. *)
Definition lastResort : handler :=
  mkHandler StreamHandler logging.WARNING [] None.

(** [Logger.callHandlers].  The root logger, the parent of
    ["bsmai_logger"], is taken with no handler of its own: the module adds
    none. *)
Definition callHandlers (s : state) (asctime : string) (record : LogRecord)
  : list event * option exn :=
  match logger_handlers s with
  | [] =>
      if (h_level lastResort <=? levelno record)%Z
      then
        match Handler_handle s asctime lastResort record with
        | Ok (_, ev) => ([ev], None)
        | Raise e => ([], Some e)
        end
      else ([], None)
  | refs => callHandlers_loop s asctime refs record
  end.

(** The level of the root logger, which ["bsmai_logger"] inherits while
    its own level is [NOTSET]. *)
Definition root_level : Z := logging.WARNING.

Definition getEffectiveLevel (s : state) : Z :=
  if (logger_level s =? logging.NOTSET)%Z then root_level else logger_level s.

(** [Logger.isEnabledFor]: [if self.manager.disable >= level: return
    False], else [level >= self.getEffectiveLevel()]. *)
Definition isEnabledFor (s : state) (level : Z) : bool :=
  if (level <=? manager_disable s)%Z then false
  else (getEffectiveLevel s <=? level)%Z.

(** [Logger.debug], [Logger.info], ...: the events of one call and the
    exception it ends in, if any.  [asctime] is the time stamp the
    formatter renders for the record. *)
Definition Logger_call (sev : severity) (message : string) (asctime : string) (s : state)
  : list event * option exn :=
  if isEnabledFor s (levelno_of sev)
  then callHandlers s asctime (makeRecord sev message)
  else ([], None).

(** The events of one call: what the handlers have written when the call
    returns or raises. *)
Definition Logger_log (sev : severity) (message : string) (asctime : string) (s : state)
  : list event :=
  fst (Logger_call sev message asctime s).

(** What a call of an emit function leaves: it returns, or it raises; in
    both cases the state is the one the call has reached and the events are
    those written so far. *)
Inductive outcome :=
  | Returned (s : state) (evs : list event)
  | Raised (e : exn) (s : state) (evs : list event).

Definition outcome_state (o : outcome) : state :=
  match o with
  | Returned s _ | Raised _ s _ => s
  end.


(** ** The functions of the module *)

Section Logger.

(** Whether opening [logpath] for appending succeeds; [FileHandler]
    raises [OSError] when it does not. *)
Variable can_open : string -> bool.

(** [x is None] *)
Definition is_none {A} (x : option A) : bool :=
  match x with None => true | Some _ => false end.

Definition to_stream (lvl : option Z) (colour : bool) (s : state) : state :=
  let add := is_none (__streamchannel__ s) in
  let s := set_logger_level logging.DEBUG s in
  let '(ref, s) :=
    match __streamchannel__ s with
    | None =>
        let '(ref, s) := alloc (new_handler StreamHandler) s in
        let s := set_streamchannel (Some ref) s in
        let s := update ref (addFilter IndentFilter) s in
        (ref, update ref (addFilter ColourFilter) s)
    | Some ref => (ref, s)
    end in
  let s :=
    match lvl with
    | None => update ref (setLevel __streamchannel_defaultlvl__) s
    | Some l => update ref (setLevel l) s
    end in
  let s :=
    if add then addHandler ref (update ref (setFormatter stream_format) s)
    else s in
  set_colouredstream colour s.

Definition to_file (logpath : string) (lvl : option Z) (s : state) : result state :=
  let add := is_none (__filechannel__ s) in
  '(ref, s) ←
    match __filechannel__ s with
    | None =>
        if can_open logpath then
          let '(ref, s) := alloc (new_handler (FileHandler logpath)) s in
          let s := set_filechannel (Some ref) s in
          Ok (ref, update ref (addFilter IndentFilter) s)
        else Raise (OSError logpath)
    | Some ref => Ok (ref, s)
    end;
  let s :=
    match lvl with
    | None => update ref (setLevel __filechannel_defaultlvl__) s
    | Some l => update ref (setLevel l) s
    end in
  let s :=
    if add then addHandler ref (update ref (setFormatter file_format) s)
    else s in
  Ok s.

Definition remove_file_channel (s : state) : state :=
  match __filechannel__ s with
  | Some ref => set_filechannel None (removeHandler ref s)
  | None => s
  end.

Definition remove_stream_channel (s : state) : state :=
  match __streamchannel__ s with
  | Some ref => set_streamchannel None (removeHandler ref s)
  | None => s
  end.

(** [logging.disable(lvl)] *)
Definition mute (lvl : Z) (s : state) : state :=
  set_manager_disable lvl s.

(** [mute()], with the default of the parameter. *)
Definition mute_default : state -> state := mute logging.CRITICAL.

Definition unmute (s : state) : state :=
  set_manager_disable logging.NOTSET s.

(** The [PyStr] case is the branch [isinstance(lvl, str)]; the last case
    is [elif lvl is not None: raise]. *)
Definition set_indent (lvl : pyval) (s : state) : result state :=
  if isinstance_int lvl then
    Ok (set_indentlevel (int_value lvl) s)
  else
    match lvl with
    | PyStr str =>
        if String.eqb str "+" then Ok (set_indentlevel (__indentlevel__ s + 1) s)
        else if String.eqb str "-" then Ok (set_indentlevel (__indentlevel__ s - 1) s)
        else Raise (Exception "Indent level not recognized")
    | PyNone => Ok s
    | _ => Raise (Exception "Indent level not recognized")
    end.

Definition colour_stream (colour : bool) (s : state) : state :=
  set_colouredstream colour s.

(** The five emit functions: [set_indent(indent)], then the logger's
    method of the same name.  An exception of [set_indent] leaves the
    state as it was; an exception of a handler comes after [set_indent]
    has written the indent level. *)
Definition emit (sev : severity) (message : string) (indent : pyval) (asctime : string)
  (s : state) : outcome :=
  match set_indent indent s with
  | Raise e => Raised e s []
  | Ok s' =>
      match Logger_call sev message asctime s' with
      | (evs, None) => Returned s' evs
      | (evs, Some e) => Raised e s' evs
      end
  end.

Definition debug := emit Debug.
Definition warning := emit Warning.
Definition critical := emit Critical.

(** The module's globals as their definitions leave them, with the
    [logging] package untouched: no handler, logger level [NOTSET],
    nothing disabled. *)
Definition module_globals : state :=
  mkState ∅ 0 None None true 0 logging.NOTSET [] logging.NOTSET.

(** The last statement of the module:
    [if __streamchannel__ is None: to_stream()]. *)
Definition initial_state : state :=
  match __streamchannel__ module_globals with
  | None => to_stream None true module_globals
  | Some _ => module_globals
  end.

(** The calls of the module that change the state, and a run of them. *)
Inductive call :=
  | CallToStream (lvl : option Z) (colour : bool)
  | CallToFile (logpath : string) (lvl : option Z)
  | CallRemoveFile
  | CallRemoveStream
  | CallMute (lvl : Z)
  | CallUnmute
  | CallSetIndent (lvl : pyval)
  | CallColourStream (colour : bool)
  | CallEmit (sev : severity) (message : string) (indent : pyval) (asctime : string).

(** The state a call leaves, whether it returns or raises: [to_file] and
    [set_indent] raise before they write anything, an emit function may
    raise after it has written the indent level. *)
Definition step (c : call) (s : state) : state :=
  match c with
  | CallToStream lvl colour => to_stream lvl colour s
  | CallToFile logpath lvl =>
      match to_file logpath lvl s with Ok s' => s' | Raise _ => s end
  | CallRemoveFile => remove_file_channel s
  | CallRemoveStream => remove_stream_channel s
  | CallMute lvl => mute lvl s
  | CallUnmute => unmute s
  | CallSetIndent lvl =>
      match set_indent lvl s with Ok s' => s' | Raise _ => s end
  | CallColourStream colour => colour_stream colour s
  | CallEmit sev message indent asctime =>
      outcome_state (emit sev message indent asctime s)
  end.

(** A caller that catches the exception of a call goes on from the state
    the call left. *)
Fixpoint run (cs : list call) (s : state) : state :=
  match cs with
  | [] => s
  | c :: cs' => run cs' (step c s)
  end.

End Logger.

(** ** Notions the properties are stated with *)

(** The text as a terminal renders it: every escape sequence, from the
    escape character to its closing [m], is dropped. *)
Fixpoint strip_from (in_escape : bool) (s : string) : string :=
  match s with
  | EmptyString => EmptyString
  | String c rest =>
      if in_escape then
        if Ascii.eqb c "m" then strip_from false rest else strip_from true rest
      else if Ascii.eqb c ESC then strip_from true rest
      else String c (strip_from false rest)
  end.

Definition strip_escapes (s : string) : string := strip_from false s.

(** Whether the escape character occurs in a string. *)
Fixpoint has_escape (s : string) : bool :=
  match s with
  | EmptyString => false
  | String c rest => Ascii.eqb c ESC || has_escape rest
  end.

(** Whether the reader of [strip_from] is inside an escape sequence once
    it has read [s]. *)
Fixpoint escape_after (in_escape : bool) (s : string) : bool :=
  match s with
  | EmptyString => in_escape
  | String c rest =>
      if in_escape then
        if Ascii.eqb c "m" then escape_after false rest else escape_after true rest
      else if Ascii.eqb c ESC then escape_after true rest
      else escape_after false rest
  end.

(** The handler kind an event comes from. *)
Definition event_sink (e : event) : handler_kind :=
  match e with
  | Wrote k _ | FormatError k => k
  end.

(** The handlers among [refs] whose level admits [level], in order. *)
Definition admitting (s : state) (level : Z) (refs : list nat) : list handler :=
  flat_map
    (fun ref =>
       match store s !! ref with
       | Some h => if (h_level h <=? level)%Z then [h] else []
       | None => []
       end)
    refs.

(** The indent levels at which the prefix can be built: the count fits
    a [Py_ssize_t] and twice the count, the length of the prefix, stays
    within [PY_SSIZE_T_MAX]. *)
Definition prefix_fits (n : Z) : Prop :=
  (-9223372036854775808 ≤ n)%Z ∧ (n < 4611686018427387904)%Z.

(** Two states that differ in the indent level at most. *)
Definition same_but_indent (s s' : state) : Prop :=
  store s' = store s ∧ next_ref s' = next_ref s ∧
  __streamchannel__ s' = __streamchannel__ s ∧
  __filechannel__ s' = __filechannel__ s ∧
  __colouredstream__ s' = __colouredstream__ s ∧
  logger_level s' = logger_level s ∧
  logger_handlers s' = logger_handlers s ∧
  manager_disable s' = manager_disable s.

(** The handlers attached to the logger whose object satisfies [p]. *)
Definition attached (p : handler -> bool) (s : state) : list nat :=
  List.filter
    (fun ref => match store s !! ref with Some h => p h | None => false end)
    (logger_handlers s).

(** The level a channel gets from the [lvl] argument. *)
Definition level_or (default : Z) (lvl : option Z) : Z :=
  match lvl with Some l => l | None => default end.

(** The line of the file channel for a message body:
    time stamp in 23 columns, severity name centred in 8, the body. *)
Definition file_line (sev : severity) (asctime body : string) : string :=
  format_left 23 asctime +:+ " | " +:+ format_center 8 (levelname_of sev) +:+ " | " +:+ body.

(** The line of the stream channel for a message body: what its
    formatter makes of a record with that message once [ColourFilter] has
    run on it. *)
Definition stream_line (s : state) (sev : severity) (asctime body : string) : option string :=
  format stream_format asctime (ColourFilter_filter s (makeRecord sev body)).

Definition stream_event (s : state) (sev : severity) (asctime body : string) : event :=
  match stream_line s sev asctime body with
  | Some line => Wrote StreamHandler line
  | None => FormatError StreamHandler
  end.

(** The events of file handlers among the events of a call. *)
Definition is_file_event (e : event) : bool :=
  match e with
  | Wrote (FileHandler _) _ | FormatError (FileHandler _) => true
  | _ => false
  end.

Definition file_events (evs : list event) : list event := List.filter is_file_event evs.

(** The shape [to_stream] and [to_file] give their handler. *)
Definition stream_shape (h : handler) : Prop :=
  h_kind h = StreamHandler ∧
  h_filters h = [IndentFilter; ColourFilter] ∧
  h_formatter h = Some stream_format.

Definition file_shape (h : handler) : Prop :=
  (∃ path, h_kind h = FileHandler path) ∧
  h_filters h = [IndentFilter] ∧
  h_formatter h = Some file_format.

(** Handlers that all have one of the two shapes. *)
Definition shaped (s : state) (refs : list nat) : Prop :=
  ∀ ref h, ref ∈ refs → store s !! ref = Some h → stream_shape h ∨ file_shape h.

(** The invariant of the channel registry: the two globals point to
    handlers of their kind, and the logger has exactly the handlers the
    globals point to, each once. *)
Record registry_ok (s : state) : Prop := mkRegistryOk {
  ok_bound : ∀ ref, is_Some (store s !! ref) → ref < next_ref s;
  ok_stream : ∀ ref, __streamchannel__ s = Some ref →
    ∃ h, store s !! ref = Some h ∧ stream_shape h;
  ok_file : ∀ ref, __filechannel__ s = Some ref →
    ∃ h, store s !! ref = Some h ∧ file_shape h;
  ok_nodup : NoDup (logger_handlers s);
  ok_attached : ∀ ref, ref ∈ logger_handlers s ↔
    (__streamchannel__ s = Some ref ∨ __filechannel__ s = Some ref)
}.

(** * Properties *)

(** ** Strings *)

Lemma append_cons (x : ascii) (a b : string) : String x a +:+ b = String x (a +:+ b).
Proof. reflexivity. Qed.

Lemma append_assoc (a b c : string) : (a +:+ b) +:+ c = a +:+ (b +:+ c).
Proof.
  induction a as [|x a IH]; [reflexivity|].
  rewrite !append_cons, IH. reflexivity.
Qed.



Lemma copies_add (s : string) (j k : nat) :
  copies s (j + k) = copies s j +:+ copies s k.
Proof.
  induction j as [|j IH]; simpl; [reflexivity|].
  rewrite IH. symmetry. apply append_assoc.
Qed.

(** Within the limits the prefix is the unit repeated max(n, 0) times. *)
Lemma str_mul_copies (n : Z) :
  prefix_fits n →
  str_mul __indentunit__ n = Ok (copies __indentunit__ (Z.to_nat (Z.max n 0))).
Proof.
  intros [Hlo Hhi]. unfold str_mul, PY_SSIZE_T_MIN, PY_SSIZE_T_MAX.
  destruct (Z.ltb_spec n (-9223372036854775808)) as [?|_]; [lia|].
  destruct (Z.ltb_spec 9223372036854775807 n) as [?|_]; [lia|].
  cbn [orb]. destruct (Z.ltb_spec n 1) as [Hlt|Hge].
  - replace (Z.max n 0) with 0%Z by lia. reflexivity.
  - replace (Z.max n 0) with n by lia.
    change (Z.of_nat (String.length __indentunit__)) with 2%Z.
    destruct (Z.ltb_spec (9223372036854775807 / n) 2) as [Hdiv|_]; [|reflexivity].
    exfalso. assert (2 ≤ 9223372036854775807 / n)%Z; [|lia].
    apply Z.div_le_lower_bound; lia.
Qed.

(** Outside the limits [str * int] raises [OverflowError]. *)
Lemma str_mul_overflow (n : Z) :
  ¬ prefix_fits n → ∃ text, str_mul __indentunit__ n = Raise (OverflowError text).
Proof.
  intros Hn. unfold str_mul, PY_SSIZE_T_MIN, PY_SSIZE_T_MAX.
  destruct (Z.ltb_spec n (-9223372036854775808)) as [?|Hlo]; [eauto|].
  destruct (Z.ltb_spec 9223372036854775807 n) as [?|Hhi]; [eauto|].
  cbn [orb].
  assert (4611686018427387904 ≤ n)%Z as Hbig by (unfold prefix_fits in Hn; lia).
  destruct (Z.ltb_spec n 1) as [?|_]; [lia|].
  change (Z.of_nat (String.length __indentunit__)) with 2%Z.
  destruct (Z.ltb_spec (9223372036854775807 / n) 2) as [_|Hdiv]; [eauto|].
  exfalso. assert (9223372036854775807 / n < 2)%Z; [|lia].
  apply Z.div_lt_upper_bound; lia.
Qed.

Lemma prefix_fits_dec (n : Z) : prefix_fits n ∨ ¬ prefix_fits n.
Proof. unfold prefix_fits. lia. Qed.

(** The prefix, when there is one, is a number of indent units. *)
Lemma str_mul_Ok (n : Z) (prefix : string) :
  str_mul __indentunit__ n = Ok prefix →
  prefix_fits n ∧ prefix = copies __indentunit__ (Z.to_nat (Z.max n 0)).
Proof.
  intros H. destruct (prefix_fits_dec n) as [Hf | Hf].
  - rewrite (str_mul_copies n Hf) in H. injection H as <-. split; [exact Hf | reflexivity].
  - destruct (str_mul_overflow n Hf) as [text Ht]. rewrite Ht in H. discriminate.
Qed.


Lemma has_escape_append (a b : string) :
  has_escape (a +:+ b) = has_escape a || has_escape b.
Proof.
  induction a as [|c a IH]; [reflexivity|].
  rewrite append_cons. simpl. rewrite IH. apply orb_assoc.
Qed.

Lemma has_escape_copies (s : string) (k : nat) :
  has_escape s = false → has_escape (copies s k) = false.
Proof.
  intros Hs. induction k as [|k IH]; simpl; [reflexivity|].
  rewrite has_escape_append, Hs, IH. reflexivity.
Qed.

(** ** The handler list *)

Lemma existsb_eqb_elem (x : nat) (l : list nat) :
  existsb (Nat.eqb x) l = true ↔ x ∈ l.
Proof.
  induction l as [|y l IH]; simpl.
  - rewrite elem_of_nil. split; [discriminate | tauto].
  - rewrite elem_of_cons, orb_true_iff, IH, Nat.eqb_eq. tauto.
Qed.

Lemma remove_first_elem (x : nat) (l : list nat) :
  NoDup l → ∀ y, y ∈ remove_first x l ↔ y ∈ l ∧ y ≠ x.
Proof.
  induction l as [|z l IH]; intros Hnd y; simpl.
  - rewrite elem_of_nil. tauto.
  - apply NoDup_cons in Hnd as [Hz Hnd].
    destruct (Nat.eqb_spec x z) as [-> | Hne].
    + rewrite elem_of_cons. split.
      * intros Hy. split; [tauto|]. intros ->. contradiction.
      * intros [[-> | Hy] Hyz]; [contradiction | exact Hy].
    + rewrite !elem_of_cons, IH by exact Hnd. split.
      * intros [-> | [Hy Hyx]]; [split; [tauto | congruence] | tauto].
      * intros [[-> | Hy] Hyx]; tauto.
Qed.

Lemma remove_first_NoDup (x : nat) (l : list nat) :
  NoDup l → NoDup (remove_first x l).
Proof.
  induction l as [|z l IH]; intros Hnd; simpl; [exact Hnd|].
  pose proof Hnd as Hnd'.
  apply NoDup_cons in Hnd as [Hz Hnd].
  destruct (Nat.eqb_spec x z) as [-> | Hne]; [exact Hnd|].
  apply NoDup_cons. split; [|apply IH; exact Hnd].
  intros Hin. apply remove_first_elem in Hin; [tauto | exact Hnd].
Qed.

(** ** Shapes *)

Lemma shapes_disjoint (h : handler) : stream_shape h → file_shape h → False.
Proof. intros [Hk _] [[p Hp] _]. congruence. Qed.

(** ** The two paths of [to_stream] and [to_file] *)

(** A live stream channel: only its level, the logger's level and the
    colour flag are written. *)
Lemma to_stream_present (s : state) (ref : nat) (lvl : option Z) (colour : bool) :
  __streamchannel__ s = Some ref →
  to_stream lvl colour s =
  set_colouredstream colour
    (update ref (setLevel (level_or __streamchannel_defaultlvl__ lvl))
       (set_logger_level logging.DEBUG s)).
Proof.
  intros H. unfold to_stream. simpl. rewrite H. simpl.
  destruct lvl; reflexivity.
Qed.

(** No stream channel: a new handler object, attached to the logger. *)
Lemma to_stream_absent (s : state) (lvl : option Z) (colour : bool) :
  __streamchannel__ s = None →
  next_ref s ∉ logger_handlers s →
  to_stream lvl colour s =
  mkState
    (<[next_ref s :=
         mkHandler StreamHandler (level_or __streamchannel_defaultlvl__ lvl)
           [IndentFilter; ColourFilter] (Some stream_format)]> (store s))
    (S (next_ref s)) (Some (next_ref s)) (__filechannel__ s) colour
    (__indentlevel__ s) logging.DEBUG (logger_handlers s ++ [next_ref s])
    (manager_disable s).
Proof.
  intros H Hfresh. unfold to_stream. simpl. rewrite H. simpl.
  assert (existsb (Nat.eqb (next_ref s)) (logger_handlers s) = false) as Hex.
  { destruct (existsb _ _) eqn:E; [|reflexivity].
    apply existsb_eqb_elem in E. contradiction. }
  destruct lvl; unfold addHandler, update, set_colouredstream; simpl;
    rewrite Hex; simpl; rewrite !alter_insert_eq; reflexivity.
Qed.

Section Paths.

Context (can_open : string → bool).

Lemma to_file_present (s : state) (ref : nat) (logpath : string) (lvl : option Z) :
  __filechannel__ s = Some ref →
  to_file can_open logpath lvl s =
  Ok (update ref (setLevel (level_or __filechannel_defaultlvl__ lvl)) s).
Proof.
  intros H. unfold to_file. rewrite H. simpl.
  destruct lvl; reflexivity.
Qed.

Lemma to_file_absent (s : state) (logpath : string) (lvl : option Z) :
  __filechannel__ s = None →
  next_ref s ∉ logger_handlers s →
  can_open logpath = true →
  to_file can_open logpath lvl s =
  Ok (mkState
        (<[next_ref s :=
             mkHandler (FileHandler logpath) (level_or __filechannel_defaultlvl__ lvl)
               [IndentFilter] (Some file_format)]> (store s))
        (S (next_ref s)) (__streamchannel__ s) (Some (next_ref s))
        (__colouredstream__ s) (__indentlevel__ s) (logger_level s)
        (logger_handlers s ++ [next_ref s]) (manager_disable s)).
Proof.
  intros H Hfresh Hopen. unfold to_file. rewrite H, Hopen. simpl.
  assert (existsb (Nat.eqb (next_ref s)) (logger_handlers s) = false) as Hex.
  { destruct (existsb _ _) eqn:E; [|reflexivity].
    apply existsb_eqb_elem in E. contradiction. }
  destruct lvl; unfold addHandler, update; simpl;
    rewrite Hex; simpl; rewrite !alter_insert_eq; reflexivity.
Qed.

(** A path that cannot be opened: [OSError], and nothing is written. *)
Lemma to_file_cannot_open (s : state) (logpath : string) (lvl : option Z) :
  __filechannel__ s = None →
  can_open logpath = false →
  to_file can_open logpath lvl s = Raise (OSError logpath).
Proof. intros H Hopen. unfold to_file. rewrite H, Hopen. reflexivity. Qed.

End Paths.

(** ** The registry invariant *)

Lemma registry_ok_module_globals : registry_ok module_globals.
Proof.
  split; simpl.
  - intros ref [h Hh]. rewrite lookup_empty in Hh. discriminate.
  - discriminate.
  - discriminate.
  - apply NoDup_nil. exact I.
  - intros ref. rewrite elem_of_nil. split; [tauto | intros [?|?]; discriminate].
Qed.

(** A reference a channel global holds is below the next fresh one. *)
Lemma registry_ok_fresh (s : state) :
  registry_ok s → next_ref s ∉ logger_handlers s.
Proof.
  intros Hok Hin. apply (ok_attached s Hok) in Hin.
  assert (next_ref s < next_ref s); [|lia].
  apply (ok_bound s Hok).
  destruct Hin as [Hc|Hc].
  - destruct (ok_stream s Hok _ Hc) as (h & -> & _). eauto.
  - destruct (ok_file s Hok _ Hc) as (h & -> & _). eauto.
Qed.

(** The two channel globals never hold the same object. *)
Lemma registry_ok_distinct (s : state) (r1 r2 : nat) :
  registry_ok s →
  __streamchannel__ s = Some r1 → __filechannel__ s = Some r2 → r1 ≠ r2.
Proof.
  intros Hok H1 H2 ->.
  destruct (ok_stream s Hok _ H1) as (h1 & Hl1 & Hs).
  destruct (ok_file s Hok _ H2) as (h2 & Hl2 & Hf).
  rewrite Hl1 in Hl2. injection Hl2 as ->. exact (shapes_disjoint _ Hs Hf).
Qed.

(** A call that writes none of the registry's fields keeps the invariant. *)
Lemma registry_ok_same (s s' : state) :
  store s' = store s → next_ref s' = next_ref s →
  __streamchannel__ s' = __streamchannel__ s →
  __filechannel__ s' = __filechannel__ s →
  logger_handlers s' = logger_handlers s →
  registry_ok s → registry_ok s'.
Proof.
  intros E1 E2 E3 E4 E5 [B S F N A].
  split; rewrite ?E1, ?E2, ?E3, ?E4, ?E5; assumption.
Qed.

Lemma registry_ok_setLevel (s : state) (ref : nat) (l : Z) :
  registry_ok s → registry_ok (update ref (setLevel l) s).
Proof.
  intros [B S F N A]. split; simpl; try assumption.
  - intros r Hr. apply B. rewrite lookup_alter in Hr.
    destruct (decide (ref = r)) as [-> | ]; [|exact Hr].
    destruct (store s !! r); [eauto | destruct Hr; discriminate].
  - intros r Hr. destruct (S r Hr) as (h & Hh & Hs).
    rewrite lookup_alter. destruct (decide (ref = r)) as [-> | ].
    + rewrite Hh. eexists; split; [reflexivity|]. exact Hs.
    + eauto.
  - intros r Hr. destruct (F r Hr) as (h & Hh & Hs).
    rewrite lookup_alter. destruct (decide (ref = r)) as [-> | ].
    + rewrite Hh. eexists; split; [reflexivity|]. exact Hs.
    + eauto.
Qed.

Lemma to_stream_ok (s : state) (lvl : option Z) (colour : bool) :
  registry_ok s → registry_ok (to_stream lvl colour s).
Proof.
  intros Hok. destruct (__streamchannel__ s) as [ref|] eqn:Hc.
  - rewrite (to_stream_present s ref lvl colour Hc).
    apply (registry_ok_same
             (update ref (setLevel (level_or __streamchannel_defaultlvl__ lvl))
                (set_logger_level logging.DEBUG s))); try reflexivity.
    apply registry_ok_setLevel.
    apply (registry_ok_same s); try reflexivity. exact Hok.
  - rewrite (to_stream_absent s lvl colour Hc (registry_ok_fresh s Hok)).
    pose proof (registry_ok_fresh s Hok) as Hfresh.
    destruct Hok as [B S F N A]. split; simpl.
    + intros r Hr. apply lookup_insert_is_Some in Hr as [<- | [_ Hr]]; [lia|].
      apply B in Hr. lia.
    + intros r [= <-]. rewrite lookup_insert_eq.
      eexists; split; [reflexivity|]. repeat split.
    + intros r Hr. destruct (F r Hr) as (h & Hh & Hs).
      rewrite lookup_insert_ne; [eauto|].
      intros <-. assert (next_ref s < next_ref s); [apply B; eauto | lia].
    + apply NoDup_app. repeat split; [exact N | | apply NoDup_singleton].
      intros x Hx Hx'. apply list_elem_of_singleton in Hx' as ->. contradiction.
    + intros r. rewrite elem_of_app, list_elem_of_singleton, A, Hc. split.
      * intros [[?|?] | ->]; [discriminate | tauto | tauto].
      * intros [[= <-] | ?]; tauto.
Qed.

Lemma remove_stream_channel_ok (s : state) :
  registry_ok s → registry_ok (remove_stream_channel s).
Proof.
  intros Hok. unfold remove_stream_channel.
  destruct (__streamchannel__ s) as [ref|] eqn:Hc; [|exact Hok].
  assert (ref ∈ logger_handlers s) as Hin by (apply (ok_attached s Hok); tauto).
  unfold removeHandler. rewrite (proj2 (existsb_eqb_elem _ _) Hin).
  pose proof (registry_ok_distinct s) as Hd.
  destruct Hok as [B S F N A]. split; simpl; try assumption.
  - discriminate.
  - apply remove_first_NoDup, N.
  - intros r. rewrite remove_first_elem by exact N. rewrite A, Hc. split.
    + intros [[[= ->] | Hf] Hne]; [contradiction | tauto].
    + intros [?|Hf]; [discriminate|]. split; [tauto|].
      intros ->. eapply Hd; [split; assumption | exact Hc | exact Hf | reflexivity].
Qed.

Lemma remove_file_channel_ok (s : state) :
  registry_ok s → registry_ok (remove_file_channel s).
Proof.
  intros Hok. unfold remove_file_channel.
  destruct (__filechannel__ s) as [ref|] eqn:Hc; [|exact Hok].
  assert (ref ∈ logger_handlers s) as Hin by (apply (ok_attached s Hok); tauto).
  unfold removeHandler. rewrite (proj2 (existsb_eqb_elem _ _) Hin).
  pose proof (registry_ok_distinct s) as Hd.
  destruct Hok as [B S F N A]. split; simpl; try assumption.
  - discriminate.
  - apply remove_first_NoDup, N.
  - intros r. rewrite remove_first_elem by exact N. rewrite A, Hc. split.
    + intros [[Hs | [= ->]] Hne]; [tauto | contradiction].
    + intros [Hs|?]; [|discriminate]. split; [tauto|].
      intros ->. eapply Hd; [split; assumption | exact Hs | exact Hc | reflexivity].
Qed.

Lemma set_indent_registry (lvl : pyval) (s s' : state) :
  set_indent lvl s = Ok s' →
  store s' = store s ∧ next_ref s' = next_ref s ∧
  __streamchannel__ s' = __streamchannel__ s ∧
  __filechannel__ s' = __filechannel__ s ∧
  logger_handlers s' = logger_handlers s ∧
  __colouredstream__ s' = __colouredstream__ s ∧
  logger_level s' = logger_level s ∧
  manager_disable s' = manager_disable s.
Proof.
  unfold set_indent. destruct (isinstance_int lvl).
  - intros [= <-]. repeat split.
  - destruct lvl as [| | |str|]; try discriminate.
    + intros [= <-]. repeat split.
    + destruct (String.eqb str "+"); [intros [= <-]; repeat split|].
      destruct (String.eqb str "-"); [intros [= <-]; repeat split|].
      discriminate.
Qed.

Section Reachable.

Context (can_open : string → bool).

Lemma to_file_ok (s s' : state) (logpath : string) (lvl : option Z) :
  registry_ok s → to_file can_open logpath lvl s = Ok s' → registry_ok s'.
Proof.
  intros Hok. destruct (__filechannel__ s) as [ref|] eqn:Hc.
  - rewrite (to_file_present can_open s ref logpath lvl Hc).
    intros [= <-]. apply registry_ok_setLevel, Hok.
  - destruct (can_open logpath) eqn:Hopen.
    2:{ rewrite (to_file_cannot_open can_open s logpath lvl Hc Hopen). discriminate. }
    pose proof (registry_ok_fresh s Hok) as Hfresh.
    rewrite (to_file_absent can_open s logpath lvl Hc Hfresh Hopen).
    intros [= <-].
    destruct Hok as [B S F N A]. split; simpl.
    + intros r Hr. apply lookup_insert_is_Some in Hr as [<- | [_ Hr]]; [lia|].
      apply B in Hr. lia.
    + intros r Hr. destruct (S r Hr) as (h & Hh & Hs).
      rewrite lookup_insert_ne; [eauto|].
      intros <-. assert (next_ref s < next_ref s); [apply B; eauto | lia].
    + intros r [= <-]. rewrite lookup_insert_eq.
      eexists; split; [reflexivity|]. repeat split. eexists. reflexivity.
    + apply NoDup_app. repeat split; [exact N | | apply NoDup_singleton].
      intros x Hx Hx'. apply list_elem_of_singleton in Hx' as ->. contradiction.
    + intros r. rewrite elem_of_app, list_elem_of_singleton, A, Hc. split.
      * intros [[?|?] | ->]; [tauto | discriminate | tauto].
      * intros [? | [= <-]]; tauto.
Qed.

(** The state an emit function leaves is the one it found or the one
    [set_indent] made of it. *)
Lemma emit_state_cases (sev : severity) (m asctime : string) (indent : pyval) (s : state) :
  outcome_state (emit sev m indent asctime s) = s ∨
  set_indent indent s = Ok (outcome_state (emit sev m indent asctime s)).
Proof.
  unfold emit. destruct (set_indent indent s) as [s1|e]; [|left; reflexivity].
  right. destruct (Logger_call sev m asctime s1) as [evs [e|]]; reflexivity.
Qed.

Lemma step_ok (c : call) (s : state) :
  registry_ok s → registry_ok (step can_open c s).
Proof.
  intros Hok. destruct c; simpl.
  - apply to_stream_ok, Hok.
  - destruct (to_file can_open logpath lvl s) as [s'|e] eqn:E; [|exact Hok].
    exact (to_file_ok s s' logpath lvl Hok E).
  - apply remove_file_channel_ok, Hok.
  - apply remove_stream_channel_ok, Hok.
  - apply (registry_ok_same s); try reflexivity. exact Hok.
  - apply (registry_ok_same s); try reflexivity. exact Hok.
  - destruct (set_indent lvl s) as [s'|e] eqn:Hs; [|exact Hok].
    destruct (set_indent_registry _ _ _ Hs) as (?&?&?&?&?&_).
    eapply registry_ok_same; eauto.
  - apply (registry_ok_same s); try reflexivity. exact Hok.
  - destruct (emit_state_cases sev message asctime indent s) as [-> | Hs]; [exact Hok|].
    destruct (set_indent_registry _ _ _ Hs) as (?&?&?&?&?&_).
    eapply registry_ok_same; eauto.
Qed.

Lemma run_ok (cs : list call) (s : state) :
  registry_ok s → registry_ok (run can_open cs s).
Proof.
  revert s. induction cs as [|c cs IH]; intros s Hok; simpl; [exact Hok|].
  apply IH, step_ok, Hok.
Qed.

Lemma initial_state_ok : registry_ok initial_state.
Proof. apply to_stream_ok, registry_ok_module_globals. Qed.

(** Every state a program can bring the module to, from its import on,
    satisfies the invariant. *)
Lemma reachable_ok (cs : list call) : registry_ok (run can_open cs initial_state).
Proof. apply run_ok, initial_state_ok. Qed.

End Reachable.

(** ** Module initialisation *)

(** C10: when the import of the module ends, before any call of the
    program, the stream channel is present: [__streamchannel__] holds a
    stream handler at level INFO that is the logger's only handler, and
    Colour Mode is on; it was absent before the module's last statement
    ran.  The file channel is absent: [__filechannel__] is [None] and no
    file handler is attached. *)
Theorem initial_state_stream_present_file_absent :
  __streamchannel__ module_globals = None ∧
  (∃ ref h,
      __streamchannel__ initial_state = Some ref ∧
      store initial_state !! ref = Some h ∧
      h_kind h = StreamHandler ∧
      h_level h = logging.INFO ∧
      logger_handlers initial_state = [ref]) ∧
  __colouredstream__ initial_state = true ∧
  __filechannel__ initial_state = None ∧
  attached is_file initial_state = [].
Proof.
  split; [reflexivity|]. split.
  - exists 0, (mkHandler StreamHandler logging.INFO [IndentFilter; ColourFilter]
                 (Some stream_format)).
    repeat split; reflexivity.
  - repeat split; reflexivity.
Qed.

(** ** Labels *)

Lemma format_center_levelname (sev : severity) :
  String.length (format_center 8 (levelname_of sev)) = 8.
Proof. destruct sev; reflexivity. Qed.

(** C8: the label of each of the five severities has the same rendered
    width, 8.  With Colour Mode on, the label with its escape sequences
    stripped is 8 characters long (it is the severity name centred in 8
    columns), and the INFO label has no escape character at all.  With
    Colour Mode off, the label is the severity name centred in 8 columns,
    and the message is left as it was. *)
Theorem label_rendered_width (s : state) (sev : severity) (m : string) :
  (∃ lab,
      levellabel (ColourFilter_filter (colour_stream true s) (makeRecord sev m)) = Some lab ∧
      String.length (strip_escapes lab) = 8 ∧
      strip_escapes lab = format_center 8 (levelname_of sev)) ∧
  (∃ lab,
      levellabel (ColourFilter_filter (colour_stream true s) (makeRecord Info m)) = Some lab ∧
      has_escape lab = false) ∧
  levellabel (ColourFilter_filter (colour_stream false s) (makeRecord sev m))
    = Some (format_center 8 (levelname_of sev)) ∧
  String.length (format_center 8 (levelname_of sev)) = 8 ∧
  filteredmessage (ColourFilter_filter (colour_stream false s) (makeRecord sev m)) = Some m ∧
  msg (ColourFilter_filter (colour_stream false s) (makeRecord sev m)) = m.
Proof.
  split; [|split; [|split; [|split; [|split]]]].
  - destruct sev; eexists; (split; [reflexivity|]); split; reflexivity.
  - eexists. split; reflexivity.
  - reflexivity.
  - apply format_center_levelname.
  - reflexivity.
  - reflexivity.
Qed.

(** ** One record through the handlers *)

Lemma append_nil_r (a : string) : a +:+ EmptyString = a.
Proof.
  induction a as [|c a IH]; [reflexivity|].
  rewrite append_cons, IH. reflexivity.
Qed.

Lemma callHandlers_loop_cons (s : state) (asctime : string) (ref : nat) (rest : list nat)
  (record : LogRecord) (h : handler) :
  store s !! ref = Some h →
  callHandlers_loop s asctime (ref :: rest) record =
  if (h_level h <=? levelno record)%Z then
    match Handler_handle s asctime h record with
    | Ok (record', ev) =>
        let '(evs, e) := callHandlers_loop s asctime rest record' in (ev :: evs, e)
    | Raise e => ([], Some e)
    end
  else callHandlers_loop s asctime rest record.
Proof. intros H. simpl. rewrite H. reflexivity. Qed.

Lemma ColourFilter_filter_keeps (s : state) (record : LogRecord) :
  msg (ColourFilter_filter s record) = msg record ∧
  levelno (ColourFilter_filter s record) = levelno record ∧
  levelname (ColourFilter_filter s record) = levelname record.
Proof.
  unfold ColourFilter_filter.
  repeat match goal with |- context [if ?b then _ else _] => destruct b end;
    repeat split.
Qed.

Lemma IndentFilter_filter_Ok (s : state) (record : LogRecord) (prefix : string) :
  str_mul __indentunit__ (__indentlevel__ s) = Ok prefix →
  IndentFilter_filter s record = Ok (set_msg record (prefix +:+ msg record)).
Proof. intros H. unfold IndentFilter_filter. rewrite H. reflexivity. Qed.

Lemma IndentFilter_filter_Raise (s : state) (record : LogRecord) (e : exn) :
  str_mul __indentunit__ (__indentlevel__ s) = Raise e →
  IndentFilter_filter s record = Raise e.
Proof. intros H. unfold IndentFilter_filter. rewrite H. reflexivity. Qed.

(** A stream handler runs both filters and writes the stream line. *)
Lemma Handler_handle_stream (s : state) (asctime : string) (h : handler)
  (sev : severity) (body prefix : string) :
  stream_shape h →
  str_mul __indentunit__ (__indentlevel__ s) = Ok prefix →
  Handler_handle s asctime h (makeRecord sev body) =
  Ok (ColourFilter_filter s (makeRecord sev (prefix +:+ body)),
      stream_event s sev asctime (prefix +:+ body)).
Proof.
  intros (Hk & Hf & Hfmt) Hp. unfold Handler_handle, stream_event, stream_line.
  rewrite Hk, Hf, Hfmt. cbn [run_filters run_filter].
  rewrite (IndentFilter_filter_Ok s _ prefix Hp). reflexivity.
Qed.

(** A file handler runs the indent filter alone and writes the file line;
    the label attributes of the record play no part. *)
Lemma Handler_handle_file (s : state) (asctime : string) (h : handler) (path : string)
  (record : LogRecord) (prefix : string) :
  file_shape h → h_kind h = FileHandler path →
  str_mul __indentunit__ (__indentlevel__ s) = Ok prefix →
  Handler_handle s asctime h record =
  Ok (set_msg record (prefix +:+ msg record),
      Wrote (FileHandler path)
        (format_left 23 asctime +:+ " | " +:+ format_center 8 (levelname record) +:+ " | " +:+
         prefix +:+ msg record)).
Proof.
  intros (_ & Hf & Hfmt) Hk Hp. unfold Handler_handle.
  rewrite Hk, Hf, Hfmt. cbn [run_filters run_filter].
  rewrite (IndentFilter_filter_Ok s _ prefix Hp). simpl.
  rewrite append_nil_r. reflexivity.
Qed.

(** A handler of either shape raises what the indent filter raises. *)
Lemma Handler_handle_Raise (s : state) (asctime : string) (h : handler)
  (record : LogRecord) (e : exn) :
  stream_shape h ∨ file_shape h →
  str_mul __indentunit__ (__indentlevel__ s) = Raise e →
  Handler_handle s asctime h record = Raise e.
Proof.
  intros [(_ & Hf & _) | (_ & Hf & _)] Hp; unfold Handler_handle; rewrite Hf;
    cbn [run_filters run_filter]; rewrite (IndentFilter_filter_Raise s _ e Hp);
    reflexivity.
Qed.

Lemma stream_line_colour_off (s : state) (sev : severity) (asctime body : string) :
  __colouredstream__ s = false →
  stream_line s sev asctime body =
  Some (format_left 23 asctime +:+ " | " +:+ format_center 8 (levelname_of sev) +:+ " | " +:+ body).
Proof.
  intros H. unfold stream_line, ColourFilter_filter. rewrite H. simpl.
  rewrite append_nil_r. reflexivity.
Qed.

(** With the five severities the stream line always exists: the colour
    filter sets both attributes the format reads. *)
Lemma stream_line_is_Some (s : state) (sev : severity) (asctime body : string) :
  ∃ lab fm,
    stream_line s sev asctime body =
    Some (format_left 23 asctime +:+ " | " +:+ lab +:+ " | " +:+ fm) ∧
    (fm = body ∨ fm = esc "[91m" +:+ body +:+ esc "[0m").
Proof.
  unfold stream_line, ColourFilter_filter.
  destruct (__colouredstream__ s); destruct sev; simpl; rewrite append_nil_r;
    eexists; eexists; (split; [reflexivity|]); tauto.
Qed.

(** The stream channel alone on the logger. *)
Lemma Logger_call_only_stream (s : state) (ref : nat) (h : handler) (sev : severity)
  (m asctime prefix : string) :
  logger_handlers s = [ref] → store s !! ref = Some h → stream_shape h →
  isEnabledFor s (levelno_of sev) = true →
  (h_level h <=? levelno_of sev)%Z = true →
  str_mul __indentunit__ (__indentlevel__ s) = Ok prefix →
  Logger_call sev m asctime s = ([stream_event s sev asctime (prefix +:+ m)], None).
Proof.
  intros Hl Hs Hshape Hen Hlvl Hp. unfold Logger_call, callHandlers.
  rewrite Hen, Hl, (callHandlers_loop_cons _ _ _ _ _ _ Hs).
  change (levelno (makeRecord sev m)) with (levelno_of sev). rewrite Hlvl.
  rewrite (Handler_handle_stream _ _ _ _ _ _ Hshape Hp). reflexivity.
Qed.

(** ** Indentation *)





(** C3: [set_indent] on an integer sets the counter to it ([bool] is a
    subclass of [int]: [True] sets it to 1); on ["+"] it adds one, on
    ["-"] it subtracts one with no floor (["-"] after 0 gives -1, ["+"]
    after 5 gives 6); in each of these cases it returns and writes nothing
    but the counter.  On [None] it changes nothing.  On every other value
    it raises the exception at once, and an emit function called with such
    an indent raises it too, with the state as it was, before any handler
    sees a record. *)
Theorem set_indent_cases (s : state) :
  (∀ z, ∃ s', set_indent (PyInt z) s = Ok s' ∧
              __indentlevel__ s' = z ∧ same_but_indent s s') ∧
  (∀ b, ∃ s', set_indent (PyBool b) s = Ok s' ∧
              __indentlevel__ s' = Z.b2z b ∧ same_but_indent s s') ∧
  (∃ s', set_indent (PyStr "+") s = Ok s' ∧
         __indentlevel__ s' = (__indentlevel__ s + 1)%Z ∧ same_but_indent s s') ∧
  (∃ s', set_indent (PyStr "-") s = Ok s' ∧
         __indentlevel__ s' = (__indentlevel__ s - 1)%Z ∧ same_but_indent s s') ∧
  (∃ s0 s1, set_indent (PyInt 0) s = Ok s0 ∧ set_indent (PyStr "-") s0 = Ok s1 ∧
            __indentlevel__ s1 = (-1)%Z ∧ same_but_indent s s1) ∧
  (∃ s0 s1, set_indent (PyInt 5) s = Ok s0 ∧ set_indent (PyStr "+") s0 = Ok s1 ∧
            __indentlevel__ s1 = 6%Z ∧ same_but_indent s s1) ∧
  set_indent PyNone s = Ok s ∧
  (∀ v, isinstance_int v = false → v ≠ PyStr "+" → v ≠ PyStr "-" → v ≠ PyNone →
        set_indent v s = Raise (Exception "Indent level not recognized") ∧
        ∀ sev m asctime,
          emit sev m v asctime s = Raised (Exception "Indent level not recognized") s []).
Proof.
  assert (∀ s0 : state, same_but_indent s0 s0) as Hrefl by (intros s0; repeat split).
  split; [|split; [|split; [|split; [|split; [|split; [|split]]]]]].
  - intros z. eexists. split; [reflexivity|]. split; [reflexivity | repeat split].
  - intros b. eexists. split; [reflexivity|]. split; [reflexivity | repeat split].
  - eexists. split; [reflexivity|]. split; [reflexivity | repeat split].
  - eexists. split; [reflexivity|]. split; [reflexivity | repeat split].
  - eexists _, _. split; [reflexivity|]. split; [reflexivity|].
    split; [reflexivity | repeat split].
  - eexists _, _. split; [reflexivity|]. split; [reflexivity|].
    split; [reflexivity | repeat split].
  - reflexivity.
  - intros v Hint Hplus Hminus Hnone.
    assert (set_indent v s = Raise (Exception "Indent level not recognized")) as H.
    { unfold set_indent. rewrite Hint.
      destruct v as [| | |str|]; try reflexivity; try discriminate.
      - contradiction.
      - destruct (String.eqb_spec str "+") as [-> | _]; [contradiction|].
        destruct (String.eqb_spec str "-") as [-> | _]; [contradiction|].
        reflexivity. }
    split; [exact H|]. intros sev m asctime. unfold emit. rewrite H. reflexivity.
Qed.

Lemma set_indent_cases_witness :
  set_indent (PyStr "++") initial_state = Raise (Exception "Indent level not recognized") ∧
  emit Info "hi" (PyObject 0) "2020-01-01 00:00:00,000" initial_state =
    Raised (Exception "Indent level not recognized") initial_state [].
Proof.
  split.
  - apply (set_indent_cases initial_state);
      [reflexivity | discriminate | discriminate | discriminate].
  - apply (set_indent_cases initial_state);
      [reflexivity | discriminate | discriminate | discriminate].
Defined.

(** ** Mute and unmute *)

Lemma run_filters_ext (s s' : state) (fs : list log_filter) (record : LogRecord) :
  __indentlevel__ s' = __indentlevel__ s →
  __colouredstream__ s' = __colouredstream__ s →
  run_filters s' fs record = run_filters s fs record.
Proof.
  intros Hi Hc. revert record.
  induction fs as [|f fs IH]; intros record; [reflexivity|].
  cbn [run_filters].
  assert (run_filter s' f record = run_filter s f record) as ->.
  { destruct f; unfold run_filter, IndentFilter_filter, ColourFilter_filter;
      rewrite ?Hi, ?Hc; reflexivity. }
  destruct (run_filter s f record); [apply IH | reflexivity].
Qed.

Lemma Handler_handle_ext (s s' : state) (asctime : string) (h : handler) (record : LogRecord) :
  __indentlevel__ s' = __indentlevel__ s →
  __colouredstream__ s' = __colouredstream__ s →
  Handler_handle s' asctime h record = Handler_handle s asctime h record.
Proof.
  intros Hi Hc. unfold Handler_handle.
  rewrite (run_filters_ext s s' _ _ Hi Hc). reflexivity.
Qed.

(** The handlers see the store, the indent level and the colour flag;
    nothing else of the state. *)
Lemma callHandlers_ext (s s' : state) (asctime : string) (record : LogRecord) :
  store s' = store s → logger_handlers s' = logger_handlers s →
  __indentlevel__ s' = __indentlevel__ s →
  __colouredstream__ s' = __colouredstream__ s →
  callHandlers s' asctime record = callHandlers s asctime record.
Proof.
  intros Hs Hl Hi Hc. unfold callHandlers. rewrite Hl.
  rewrite (Handler_handle_ext s s' _ _ _ Hi Hc).
  assert (∀ refs r, callHandlers_loop s' asctime refs r = callHandlers_loop s asctime refs r)
    as Hloop.
  { induction refs as [|ref refs IH]; intros r; cbn [callHandlers_loop]; [reflexivity|].
    rewrite Hs. destruct (store s !! ref) as [h|]; [|apply IH].
    rewrite (Handler_handle_ext s s' _ _ _ Hi Hc).
    destruct (h_level h <=? levelno r)%Z; [|apply IH].
    destruct (Handler_handle s asctime h r) as [[r' ev]|e]; [|reflexivity].
    rewrite IH. reflexivity. }
  destruct (logger_handlers s); [reflexivity | apply Hloop].
Qed.

(** [logging.disable(L)] turns off every call at level [L] and below:
    [isEnabledFor] tests [manager.disable >= level]. *)
Lemma mute_suppresses_call (L : Z) (s : state) (sev : severity) (m asctime : string) :
  (levelno_of sev <= L)%Z → Logger_call sev m asctime (mute L s) = ([], None).
Proof.
  intros H. unfold Logger_call, isEnabledFor. simpl.
  destruct (Z.leb_spec (levelno_of sev) L); [reflexivity | lia].
Qed.

Lemma mute_suppresses (L : Z) (s : state) (sev : severity) (m asctime : string) :
  (levelno_of sev <= L)%Z → Logger_log sev m asctime (mute L s) = [].
Proof. intros H. unfold Logger_log. rewrite mute_suppresses_call by exact H. reflexivity. Qed.

(** Above the threshold a call goes through as if nothing were muted. *)
Lemma mute_passes_call (L : Z) (s : state) (sev : severity) (m asctime : string) :
  (L < levelno_of sev)%Z →
  Logger_call sev m asctime (mute L s) = Logger_call sev m asctime (unmute s).
Proof.
  intros H. unfold Logger_call, isEnabledFor, getEffectiveLevel. simpl.
  destruct (Z.leb_spec (levelno_of sev) L) as [Hle|_]; [lia|].
  destruct (Z.leb_spec (levelno_of sev) logging.NOTSET) as [Hzero|_].
  { destruct sev; vm_compute in Hzero; contradiction. }
  rewrite (callHandlers_ext (unmute s) (mute L s)) by reflexivity. reflexivity.
Qed.

Lemma mute_passes (L : Z) (s : state) (sev : severity) (m asctime : string) :
  (L < levelno_of sev)%Z →
  Logger_log sev m asctime (mute L s) = Logger_log sev m asctime (unmute s).
Proof. intros H. unfold Logger_log. rewrite mute_passes_call by exact H. reflexivity. Qed.

(** After [unmute] the logger lets every severity through, DEBUG
    included, once [to_stream] has set its level. *)
Lemma unmute_enabled (s : state) (sev : severity) :
  logger_level s = logging.DEBUG → isEnabledFor (unmute s) (levelno_of sev) = true.
Proof.
  intros H. unfold isEnabledFor, getEffectiveLevel. simpl. rewrite H.
  destruct sev; reflexivity.
Qed.

Section Visibility.

Context (can_open : string → bool).

Lemma step_logger_level (c : call) (s : state) :
  logger_level s = logging.DEBUG → logger_level (step can_open c s) = logging.DEBUG.
Proof.
  intros H. destruct c; simpl.
  - destruct (__streamchannel__ s) as [ref|] eqn:Hc.
    + rewrite (to_stream_present s ref lvl colour Hc). reflexivity.
    + unfold to_stream. simpl. rewrite Hc. simpl. unfold addHandler.
      destruct lvl; simpl;
        match goal with |- context [if ?b then _ else _] => destruct b end;
        reflexivity.
  - unfold to_file. destruct (__filechannel__ s); simpl.
    + destruct lvl; exact H.
    + destruct (can_open logpath); simpl; [|exact H].
      unfold addHandler.
      destruct lvl; simpl;
        match goal with |- context [if ?b then _ else _] => destruct b end;
        exact H.
  - unfold remove_file_channel, removeHandler.
    destruct (__filechannel__ s); [|exact H]. simpl.
    match goal with |- context [if ?b then _ else _] => destruct b end; exact H.
  - unfold remove_stream_channel, removeHandler.
    destruct (__streamchannel__ s); [|exact H]. simpl.
    match goal with |- context [if ?b then _ else _] => destruct b end; exact H.
  - exact H.
  - exact H.
  - destruct (set_indent lvl s) as [s'|e] eqn:Hs; [|exact H].
    destruct (set_indent_registry _ _ _ Hs) as (_&_&_&_&_&_&->&_). exact H.
  - exact H.
  - destruct (emit_state_cases sev message asctime indent s) as [-> | Hs]; [exact H|].
    destruct (set_indent_registry _ _ _ Hs) as (_&_&_&_&_&_&->&_). exact H.
Qed.

(** [to_stream] sets the logger's level to DEBUG at import, and no call
    of the module sets it to anything else. *)
Lemma reachable_logger_level (cs : list call) :
  logger_level (run can_open cs initial_state) = logging.DEBUG.
Proof.
  assert (∀ s, logger_level s = logging.DEBUG →
               logger_level (run can_open cs s) = logging.DEBUG) as H.
  { induction cs as [|c cs IH]; intros s Hs; simpl; [exact Hs|].
    apply IH, step_logger_level, Hs. }
  apply H. reflexivity.
Qed.

(** In every reachable state, [unmute] lets each of the five severities
    through the logger again, DEBUG included. *)
Lemma unmute_restores_visibility (cs : list call) (sev : severity) :
  isEnabledFor (unmute (run can_open cs initial_state)) (levelno_of sev) = true.
Proof. apply unmute_enabled, reachable_logger_level. Qed.

End Visibility.

(** C1: on the state the module starts in, a WARNING call writes a line;
    after [mute(WARNING)] the same call writes nothing, although its
    severity is exactly the threshold; and after [mute()], whose
    threshold is CRITICAL, a CRITICAL call writes nothing. *)
Theorem mute_silences_threshold_level (m asctime : string) :
  (∃ line, warning m PyNone asctime initial_state =
           Returned initial_state [Wrote StreamHandler line]) ∧
  warning m PyNone asctime (mute logging.WARNING initial_state) =
    Returned (mute logging.WARNING initial_state) [] ∧
  critical m PyNone asctime (mute_default initial_state) =
    Returned (mute_default initial_state) [].
Proof.
  split; [|split].
  - unfold warning, emit. cbn [set_indent isinstance_int].
    rewrite (Logger_call_only_stream _ 0
               (mkHandler StreamHandler logging.INFO [IndentFilter; ColourFilter]
                  (Some stream_format)) Warning m asctime EmptyString);
      [| reflexivity | vm_compute; reflexivity | repeat split | reflexivity | reflexivity
       | reflexivity].
    unfold stream_event.
    destruct (stream_line_is_Some initial_state Warning asctime (EmptyString +:+ m))
      as (lab & fm & -> & _).
    eexists. reflexivity.
  - unfold warning, emit. cbn [set_indent isinstance_int].
    rewrite mute_suppresses_call; [reflexivity|]. simpl. lia.
  - unfold critical, emit, mute_default. cbn [set_indent isinstance_int].
    rewrite mute_suppresses_call; [reflexivity|]. simpl. lia.
Qed.

(** ** Counting the attached channels *)

Lemma filter_none (p : nat → bool) (l : list nat) :
  (∀ x, x ∈ l → p x = false) → List.filter p l = [].
Proof.
  induction l as [|y l IH]; intros H; simpl; [reflexivity|].
  rewrite (H y) by (apply elem_of_cons; tauto).
  apply IH. intros x Hx. apply H, elem_of_cons. tauto.
Qed.

Lemma filter_unique (p : nat → bool) (l : list nat) (a : nat) :
  NoDup l → a ∈ l → (∀ x, x ∈ l → (p x = true ↔ x = a)) → List.filter p l = [a].
Proof.
  induction l as [|y l IH]; intros Hnd Ha H.
  - apply elem_of_nil in Ha. contradiction.
  - apply NoDup_cons in Hnd as [Hy Hnd]. simpl.
    assert (∀ x, x ∈ l → (p x = true ↔ x = a)) as Hl.
    { intros x Hx. apply H, elem_of_cons. tauto. }
    destruct (p y) eqn:Hpy.
    + assert (y = a) as -> by (apply H; [apply elem_of_cons; tauto | exact Hpy]).
      f_equal. apply filter_none. intros x Hx.
      destruct (p x) eqn:Hpx; [|reflexivity].
      apply Hl in Hpx; [|exact Hx]. subst x. contradiction.
    + apply elem_of_cons in Ha as [-> | Ha].
      * assert (p y = true) as Hy' by (apply H; [apply elem_of_cons; tauto | reflexivity]).
        congruence.
      * apply IH; assumption.
Qed.

Lemma stream_shape_is_stream (h : handler) :
  stream_shape h → is_stream h = true ∧ is_file h = false.
Proof. intros (Hk & _). unfold is_stream, is_file. rewrite Hk. tauto. Qed.

Lemma file_shape_is_file (h : handler) :
  file_shape h → is_stream h = false ∧ is_file h = true.
Proof. intros ((p & Hk) & _). unfold is_stream, is_file. rewrite Hk. tauto. Qed.

(** Under the invariant the logger has one stream handler when
    [__streamchannel__] is set, and none otherwise. *)
Lemma attached_is_stream (s : state) :
  registry_ok s →
  attached is_stream s =
  match __streamchannel__ s with Some ref => [ref] | None => [] end.
Proof.
  intros Hok. pose proof (registry_ok_distinct s) as Hd.
  pose proof Hok as [B S F N A]. unfold attached.
  assert (∀ r, __filechannel__ s = Some r →
               match store s !! r with Some h => is_stream h | None => false end = false)
    as Hfile.
  { intros r Hr. destruct (F r Hr) as (h & -> & Hs). apply file_shape_is_file, Hs. }
  destruct (__streamchannel__ s) as [rs|] eqn:Hc.
  - apply filter_unique; [exact N | apply A; tauto |].
    intros x Hx. split.
    + intros Hp. apply A in Hx as [[= ->] | Hf]; [reflexivity|].
      rewrite (Hfile x Hf) in Hp. discriminate.
    + intros ->. destruct (S rs eq_refl) as (h & -> & Hs).
      apply stream_shape_is_stream, Hs.
  - apply filter_none. intros x Hx.
    apply A in Hx as [? | Hf]; [discriminate|]. apply Hfile, Hf.
Qed.

Lemma attached_is_file (s : state) :
  registry_ok s →
  attached is_file s =
  match __filechannel__ s with Some ref => [ref] | None => [] end.
Proof.
  intros Hok. pose proof (registry_ok_distinct s) as Hd.
  pose proof Hok as [B S F N A]. unfold attached.
  assert (∀ r, __streamchannel__ s = Some r →
               match store s !! r with Some h => is_file h | None => false end = false)
    as Hstream.
  { intros r Hr. destruct (S r Hr) as (h & -> & Hs). apply stream_shape_is_stream, Hs. }
  destruct (__filechannel__ s) as [rf|] eqn:Hc.
  - apply filter_unique; [exact N | apply A; tauto |].
    intros x Hx. split.
    + intros Hp. apply A in Hx as [Hs | [= ->]]; [|reflexivity].
      rewrite (Hstream x Hs) in Hp. discriminate.
    + intros ->. destruct (F rf eq_refl) as (h & -> & Hs).
      apply file_shape_is_file, Hs.
  - apply filter_none. intros x Hx.
    apply A in Hx as [Hs | ?]; [|discriminate]. apply Hstream, Hs.
Qed.

(** [setLevel] on one handler changes the kind of no handler. *)
Lemma attached_setLevel (p : handler → bool) (s : state) (ref : nat) (l : Z) :
  (∀ h, p (setLevel l h) = p h) →
  attached p (update ref (setLevel l) s) = attached p s.
Proof.
  intros Hp. unfold attached. simpl. apply List.filter_ext. intros r.
  rewrite lookup_alter. destruct (decide (ref = r)) as [-> | _]; [|reflexivity].
  destruct (store s !! r); simpl; [apply Hp | reflexivity].
Qed.

(** ** The channel registry *)

Section Registry.

Context (can_open : string → bool).

(** C5: from any state the program can reach, [to_stream] called with
    [L1] and then with [L2] leaves one stream handler on the logger: the
    one [__streamchannel__] holds, with level [L2] (INFO when [L2] is
    [None]).  The second call creates no object and leaves the handler
    list as the first call left it.  And in every reachable state the
    logger has at most one stream handler. *)
Theorem to_stream_twice_one_channel (cs : list call) (L1 L2 : option Z) (c1 c2 : bool) :
  let s := run can_open cs initial_state in
  let s1 := to_stream L1 c1 s in
  let s2 := to_stream L2 c2 s1 in
  (∃ ref h,
      __streamchannel__ s2 = Some ref ∧
      store s2 !! ref = Some h ∧
      h_kind h = StreamHandler ∧
      h_level h = level_or logging.INFO L2 ∧
      attached is_stream s2 = [ref]) ∧
  __streamchannel__ s2 = __streamchannel__ s1 ∧
  next_ref s2 = next_ref s1 ∧
  logger_handlers s2 = logger_handlers s1 ∧
  (List.length (attached is_stream s) ≤ 1)%nat.
Proof.
  intros s s1 s2.
  assert (registry_ok s) as Hok by apply reachable_ok.
  assert (registry_ok s1) as Hok1 by apply to_stream_ok, Hok.
  assert (registry_ok s2) as Hok2 by apply to_stream_ok, Hok1.
  assert (∃ ref, __streamchannel__ s1 = Some ref) as [ref Hc1].
  { unfold s1. destruct (__streamchannel__ s) as [r|] eqn:Hc.
    - rewrite (to_stream_present s r L1 c1 Hc). eauto.
    - rewrite (to_stream_absent s L1 c1 Hc (registry_ok_fresh s Hok)). simpl. eauto. }
  assert (s2 = set_colouredstream c2
                 (update ref (setLevel (level_or __streamchannel_defaultlvl__ L2))
                    (set_logger_level logging.DEBUG s1))) as E2
    by apply (to_stream_present s1 ref L2 c2 Hc1).
  destruct (ok_stream s1 Hok1 ref Hc1) as (h1 & Hh1 & Hs1).
  assert (__streamchannel__ s2 = Some ref) as Hc2 by (rewrite E2; exact Hc1).
  split; [|split; [|split; [|split]]].
  - exists ref, (setLevel (level_or __streamchannel_defaultlvl__ L2) h1).
    split; [exact Hc2|]. split.
    { rewrite E2. simpl. rewrite lookup_alter_eq, Hh1. reflexivity. }
    split; [apply Hs1|]. split; [reflexivity|].
    rewrite (attached_is_stream s2 Hok2), Hc2. reflexivity.
  - rewrite Hc2, Hc1. reflexivity.
  - rewrite E2. reflexivity.
  - rewrite E2. reflexivity.
  - rewrite (attached_is_stream s Hok). destruct (__streamchannel__ s); simpl; lia.
Qed.

(** C6: while a file channel is live, [to_file] succeeds whatever the path
    (it is not opened, so even a path that cannot be opened raises
    nothing) and writes the level of the live handler only: its path, its
    filters and its formatter stay, every other handler stays, no object is
    created, the logger's handler list and every global stay, so the
    logger has the file handlers it had. *)
Theorem to_file_again_sets_level_only (s : state) (ref : nat) (h : handler)
  (logpath : string) (lvl : option Z) :
  __filechannel__ s = Some ref →
  store s !! ref = Some h →
  ∃ s' h',
    to_file can_open logpath lvl s = Ok s' ∧
    store s' !! ref = Some h' ∧
    h_level h' = level_or logging.INFO lvl ∧
    h_kind h' = h_kind h ∧
    h_filters h' = h_filters h ∧
    h_formatter h' = h_formatter h ∧
    (∀ r, r ≠ ref → store s' !! r = store s !! r) ∧
    next_ref s' = next_ref s ∧
    __filechannel__ s' = Some ref ∧
    __streamchannel__ s' = __streamchannel__ s ∧
    logger_handlers s' = logger_handlers s ∧
    attached is_file s' = attached is_file s ∧
    __colouredstream__ s' = __colouredstream__ s ∧
    __indentlevel__ s' = __indentlevel__ s ∧
    logger_level s' = logger_level s ∧
    manager_disable s' = manager_disable s.
Proof.
  intros Hc Hh.
  exists (update ref (setLevel (level_or __filechannel_defaultlvl__ lvl)) s),
         (setLevel (level_or __filechannel_defaultlvl__ lvl) h).
  split; [apply to_file_present, Hc|].
  split; [simpl; rewrite lookup_alter_eq, Hh; reflexivity|].
  do 4 (split; [reflexivity|]).
  split; [intros r Hr; simpl; apply lookup_alter_ne; congruence|].
  split; [reflexivity|]. split; [exact Hc|].
  do 2 (split; [reflexivity|]).
  split; [apply attached_setLevel; reflexivity|].
  repeat split.
Qed.

End Registry.

Lemma to_file_again_sets_level_only_witness :
  let s := run (fun _ => true) [CallToFile "a.log" None] initial_state in
  ∃ s' h',
    to_file (fun _ => false) "b.log" (Some logging.ERROR) s = Ok s' ∧
    store s' !! 1 = Some h' ∧
    h_level h' = logging.ERROR ∧
    h_kind h' = FileHandler "a.log" ∧
    logger_handlers s' = [0; 1].
Proof.
  intros s.
  destruct (to_file_again_sets_level_only (fun _ => false) s 1
              (mkHandler (FileHandler "a.log") logging.INFO [IndentFilter] (Some file_format))
              "b.log" (Some logging.ERROR))
    as (s' & h' & E & Hl & Hlvl & Hk & _ & _ & _ & _ & _ & _ & Hhs & _).
  - reflexivity.
  - vm_compute. reflexivity.
  - exists s', h'. repeat split; assumption.
Defined.

Section Channels.

Context (can_open : string → bool).

(** C9: in every reachable state, [remove_stream_channel] with a stream
    channel present clears [__streamchannel__] and takes the handler off
    the logger, leaving the other handlers and the file channel as they
    were; with none present it returns the state unchanged.  The same
    holds of [remove_file_channel].  Neither can raise.  Removing a file
    channel right after the import, and removing either channel of a
    module that never enabled one, changes nothing. *)
Theorem remove_channel_detaches_or_noop (cs : list call) :
  let s := run can_open cs initial_state in
  (∀ ref, __streamchannel__ s = Some ref →
     let s' := remove_stream_channel s in
     __streamchannel__ s' = None ∧
     (ref ∉ logger_handlers s') ∧
     attached is_stream s' = [] ∧
     (∀ r, r ≠ ref → (r ∈ logger_handlers s' ↔ r ∈ logger_handlers s)) ∧
     __filechannel__ s' = __filechannel__ s ∧
     store s' = store s) ∧
  (__streamchannel__ s = None → remove_stream_channel s = s) ∧
  (∀ ref, __filechannel__ s = Some ref →
     let s' := remove_file_channel s in
     __filechannel__ s' = None ∧
     (ref ∉ logger_handlers s') ∧
     attached is_file s' = [] ∧
     (∀ r, r ≠ ref → (r ∈ logger_handlers s' ↔ r ∈ logger_handlers s)) ∧
     __streamchannel__ s' = __streamchannel__ s ∧
     store s' = store s) ∧
  (__filechannel__ s = None → remove_file_channel s = s) ∧
  remove_file_channel initial_state = initial_state ∧
  remove_stream_channel module_globals = module_globals ∧
  remove_file_channel module_globals = module_globals.
Proof.
  intros s. assert (registry_ok s) as Hok by apply reachable_ok.
  split; [|split; [|split; [|split; [|repeat split]]]].
  - intros ref Hc s'.
    assert (registry_ok s') as Hok' by apply remove_stream_channel_ok, Hok.
    assert (ref ∈ logger_handlers s) as Hin by (apply (ok_attached s Hok); tauto).
    assert (s' = set_streamchannel None
                   (set_logger_handlers (remove_first ref (logger_handlers s)) s)) as E.
    { unfold s', remove_stream_channel, removeHandler.
      rewrite Hc, (proj2 (existsb_eqb_elem _ _) Hin). reflexivity. }
    split; [rewrite E; reflexivity|].
    split.
    { rewrite E. simpl. rewrite remove_first_elem by apply (ok_nodup s Hok). tauto. }
    split.
    { rewrite (attached_is_stream s' Hok'), E. reflexivity. }
    split.
    { intros r Hr. rewrite E. simpl.
      rewrite remove_first_elem by apply (ok_nodup s Hok). tauto. }
    rewrite E. split; reflexivity.
  - intros Hc. unfold remove_stream_channel. rewrite Hc. reflexivity.
  - intros ref Hc s'.
    assert (registry_ok s') as Hok' by apply remove_file_channel_ok, Hok.
    assert (ref ∈ logger_handlers s) as Hin by (apply (ok_attached s Hok); tauto).
    assert (s' = set_filechannel None
                   (set_logger_handlers (remove_first ref (logger_handlers s)) s)) as E.
    { unfold s', remove_file_channel, removeHandler.
      rewrite Hc, (proj2 (existsb_eqb_elem _ _) Hin). reflexivity. }
    split; [rewrite E; reflexivity|].
    split.
    { rewrite E. simpl. rewrite remove_first_elem by apply (ok_nodup s Hok). tauto. }
    split.
    { rewrite (attached_is_file s' Hok'), E. reflexivity. }
    split.
    { intros r Hr. rewrite E. simpl.
      rewrite remove_first_elem by apply (ok_nodup s Hok). tauto. }
    rewrite E. split; reflexivity.
  - intros Hc. unfold remove_file_channel. rewrite Hc. reflexivity.
Qed.

End Channels.

Lemma remove_channel_detaches_or_noop_witness :
  let s := run (fun _ => true) [CallToFile "a.log" None] initial_state in
  (__streamchannel__ (remove_stream_channel s) = None ∧
   0 ∉ logger_handlers (remove_stream_channel s)) ∧
  (__filechannel__ (remove_file_channel s) = None ∧
   1 ∉ logger_handlers (remove_file_channel s)) ∧
  remove_stream_channel (remove_stream_channel s) = remove_stream_channel s ∧
  remove_file_channel (remove_file_channel s) = remove_file_channel s.
Proof.
  intros s.
  pose proof (remove_channel_detaches_or_noop (fun _ => true) [CallToFile "a.log" None])
    as (Hs & _ & Hf & _).
  pose proof (remove_channel_detaches_or_noop (fun _ => true)
                [CallToFile "a.log" None; CallRemoveStream]) as (_ & Hs0 & _).
  pose proof (remove_channel_detaches_or_noop (fun _ => true)
                [CallToFile "a.log" None; CallRemoveFile]) as (_ & _ & _ & Hf0 & _).
  split; [|split; [|split]].
  - destruct (Hs 0 eq_refl) as (H1 & H2 & _). split; assumption.
  - destruct (Hf 1 eq_refl) as (H1 & H2 & _). split; assumption.
  - apply Hs0. reflexivity.
  - apply Hf0. reflexivity.
Defined.

(** ** One call, two channels *)


Lemma callHandlers_nonempty (s : state) (asctime : string) (record : LogRecord) :
  logger_handlers s ≠ [] →
  callHandlers s asctime record = callHandlers_loop s asctime (logger_handlers s) record.
Proof. unfold callHandlers. destruct (logger_handlers s); [contradiction | reflexivity]. Qed.





Section TwoChannels.

Context (can_open : string → bool).


End TwoChannels.



(** ** The file channel and colour *)

(** What a stream-shaped handler does to any record: both filters, and an
    event that is not a file event. *)
Lemma Handler_handle_stream_any (s : state) (asctime : string) (h : handler)
  (record : LogRecord) (prefix : string) :
  stream_shape h →
  str_mul __indentunit__ (__indentlevel__ s) = Ok prefix →
  ∃ ev,
    Handler_handle s asctime h record =
      Ok (ColourFilter_filter s (set_msg record (prefix +:+ msg record)), ev) ∧
    ev = match format stream_format asctime
                 (ColourFilter_filter s (set_msg record (prefix +:+ msg record))) with
         | Some line => Wrote StreamHandler line
         | None => FormatError StreamHandler
         end ∧
    is_file_event ev = false.
Proof.
  intros (Hk & Hf & Hfmt) Hp. unfold Handler_handle. rewrite Hk, Hf, Hfmt.
  cbn [run_filters run_filter]. rewrite (IndentFilter_filter_Ok s _ prefix Hp).
  eexists. split; [reflexivity|]. split; [reflexivity|].
  destruct (format _ _ _); reflexivity.
Qed.

Lemma has_escape_file_line (sev : severity) (asctime body : string) :
  has_escape asctime = false → has_escape body = false →
  has_escape (file_line sev asctime body) = false.
Proof.
  intros Ht Hb. unfold file_line, format_left, spaces.
  rewrite !has_escape_append, Ht, Hb, has_escape_copies by reflexivity.
  destruct sev; reflexivity.
Qed.

Lemma registry_ok_shaped (s : state) : registry_ok s → shaped s (logger_handlers s).
Proof.
  intros Hok ref h Hin Hh. apply (ok_attached s Hok) in Hin as [Hc | Hc].
  - destruct (ok_stream s Hok ref Hc) as (h' & Hh' & Hs). left. congruence.
  - destruct (ok_file s Hok ref Hc) as (h' & Hh' & Hs). right. congruence.
Qed.

Lemma shaped_tail (s : state) (ref : nat) (refs : list nat) :
  shaped s (ref :: refs) → shaped s refs.
Proof. intros H r h Hin. apply H, elem_of_cons. tauto. Qed.

(** When the prefix cannot be built, the first handler that admits the
    record raises: the loop writes nothing. *)
Lemma loop_raise (s : state) (asctime : string) (refs : list nat) (e : exn) :
  shaped s refs →
  str_mul __indentunit__ (__indentlevel__ s) = Raise e →
  ∀ record, fst (callHandlers_loop s asctime refs record) = [].
Proof.
  intros Hsh Hp. induction refs as [|ref refs IH]; intros record; [reflexivity|].
  cbn [callHandlers_loop]. pose proof (shaped_tail _ _ _ Hsh) as Hsh'.
  destruct (store s !! ref) as [h|] eqn:Hh; [|apply IH, Hsh'].
  destruct (h_level h <=? levelno record)%Z; [|apply IH, Hsh'].
  rewrite (Handler_handle_Raise s asctime h record e); [reflexivity | | exact Hp].
  apply (Hsh ref h); [apply elem_of_cons; tauto | exact Hh].
Qed.

(** The stream format reads the label attributes only, and the colour
    filter derives them from the level, the level name and the message. *)
Lemma stream_format_of_record (s : state) (sev : severity) (asctime : string)
  (record : LogRecord) :
  levelno record = levelno_of sev → levelname record = levelname_of sev →
  format stream_format asctime (ColourFilter_filter s record) =
  stream_line s sev asctime (msg record).
Proof.
  intros Hno Hname. unfold stream_line, ColourFilter_filter.
  rewrite Hno, Hname. cbn [levelno levelname msg makeRecord].
  destruct (__colouredstream__ s); [|reflexivity].
  destruct sev; reflexivity.
Qed.

(** Every event of the loop comes from a stream line or a file line of
    the message behind some number of indent units. *)
Lemma loop_events_form (s : state) (asctime : string) (sev : severity) (m : string)
  (refs : list nat) (j0 : nat) :
  shaped s refs →
  str_mul __indentunit__ (__indentlevel__ s) = Ok (copies __indentunit__ j0) →
  ∀ record,
    levelno record = levelno_of sev →
    levelname record = levelname_of sev →
    (∃ k, msg record = copies __indentunit__ k +:+ m) →
    ∀ e, e ∈ fst (callHandlers_loop s asctime refs record) →
         (∃ k, e = stream_event s sev asctime (copies __indentunit__ k +:+ m)) ∨
         (∃ path k, e = Wrote (FileHandler path)
                          (file_line sev asctime (copies __indentunit__ k +:+ m))).
Proof.
  intros Hsh Hp. induction refs as [|ref refs IH]; intros record Hno Hname [k Hmsg] e He.
  - apply elem_of_nil in He. contradiction.
  - cbn [callHandlers_loop] in He.
    pose proof (shaped_tail _ _ _ Hsh) as Hsh'.
    destruct (store s !! ref) as [h|] eqn:Hh; [|eapply (IH Hsh' record); eauto].
    destruct (h_level h <=? levelno record)%Z; [|eapply (IH Hsh' record); eauto].
    assert (copies __indentunit__ j0 +:+ msg record = copies __indentunit__ (j0 + k) +:+ m)
      as Hj by (rewrite Hmsg, copies_add, append_assoc; reflexivity).
    destruct (Hsh ref h) as [Hs | Hf]; [apply elem_of_cons; tauto | exact Hh | |].
    + destruct (Handler_handle_stream_any s asctime h record _ Hs Hp) as (ev & Hhh & Hev & _).
      rewrite Hhh in He.
      rewrite (stream_format_of_record s sev) in Hev by assumption.
      destruct (ColourFilter_filter_keeps s
                  (set_msg record (copies __indentunit__ j0 +:+ msg record)))
        as (Hm & Hn & Hnm).
      destruct (callHandlers_loop s asctime refs _) as [evs e0] eqn:Hloop.
      cbn [fst] in He. apply elem_of_cons in He as [-> | He].
      * left. exists (j0 + k). rewrite Hev. unfold stream_event.
        cbn [msg set_msg]. rewrite Hj. reflexivity.
      * eapply (IH Hsh' (ColourFilter_filter s
                           (set_msg record (copies __indentunit__ j0 +:+ msg record))));
          [rewrite Hn; exact Hno | rewrite Hnm; exact Hname
          | exists (j0 + k); rewrite Hm; exact Hj | rewrite Hloop; exact He].
    + pose proof Hf as ((path & Hpath) & _).
      rewrite (Handler_handle_file s asctime h path record _ Hf Hpath Hp) in He.
      destruct (callHandlers_loop s asctime refs _) as [evs e0] eqn:Hloop.
      cbn [fst] in He. apply elem_of_cons in He as [-> | He].
      * right. exists path, (j0 + k). rewrite Hj, Hname. reflexivity.
      * eapply (IH Hsh' (set_msg record (copies __indentunit__ j0 +:+ msg record)));
          [exact Hno | exact Hname | exists (j0 + k); exact Hj | rewrite Hloop; exact He].
Qed.

(** The file events of the loop do not depend on the colour flag, nor on
    the label attributes the colour filter has put on the record. *)
Lemma loop_file_events_colour (s : state) (b : bool) (asctime : string) (refs : list nat)
  (prefix : string) :
  shaped s refs →
  str_mul __indentunit__ (__indentlevel__ s) = Ok prefix →
  ∀ r1 r2,
    msg r1 = msg r2 → levelno r1 = levelno r2 → levelname r1 = levelname r2 →
    file_events (fst (callHandlers_loop (colour_stream b s) asctime refs r1)) =
    file_events (fst (callHandlers_loop s asctime refs r2)).
Proof.
  intros Hsh Hp.
  induction refs as [|ref refs IH]; intros r1 r2 Hm Hno Hname; [reflexivity|].
  cbn [callHandlers_loop].
  pose proof (shaped_tail _ _ _ Hsh) as Hsh'.
  change (store (colour_stream b s)) with (store s).
  destruct (store s !! ref) as [h|] eqn:Hh; [|apply (IH Hsh'); assumption].
  rewrite Hno.
  destruct (h_level h <=? levelno r2)%Z; [|apply (IH Hsh'); assumption].
  destruct (Hsh ref h) as [Hs | Hf]; [apply elem_of_cons; tauto | exact Hh | |].
  - destruct (Handler_handle_stream_any (colour_stream b s) asctime h r1 prefix Hs Hp)
      as (e1 & -> & _ & Hs1).
    destruct (Handler_handle_stream_any s asctime h r2 prefix Hs Hp) as (e2 & -> & _ & Hs2).
    destruct (ColourFilter_filter_keeps (colour_stream b s)
                (set_msg r1 (prefix +:+ msg r1))) as (Ha & Hb & Hc).
    destruct (ColourFilter_filter_keeps s (set_msg r2 (prefix +:+ msg r2)))
      as (Ha' & Hb' & Hc').
    specialize (IH Hsh' (ColourFilter_filter (colour_stream b s)
                           (set_msg r1 (prefix +:+ msg r1)))
                  (ColourFilter_filter s (set_msg r2 (prefix +:+ msg r2)))).
    destruct (callHandlers_loop (colour_stream b s) asctime refs _) as [evs1 x1].
    destruct (callHandlers_loop s asctime refs _) as [evs2 x2].
    cbn [fst] in *. unfold file_events in *. cbn [List.filter].
    rewrite Hs1, Hs2. apply IH; rewrite ?Ha, ?Ha', ?Hb, ?Hb', ?Hc, ?Hc'; simpl; congruence.
  - pose proof Hf as ((path & Hpath) & _).
    rewrite (Handler_handle_file (colour_stream b s) asctime h path r1 prefix Hf Hpath Hp).
    rewrite (Handler_handle_file s asctime h path r2 prefix Hf Hpath Hp).
    specialize (IH Hsh' (set_msg r1 (prefix +:+ msg r1)) (set_msg r2 (prefix +:+ msg r2))).
    destruct (callHandlers_loop (colour_stream b s) asctime refs _) as [evs1 x1].
    destruct (callHandlers_loop s asctime refs _) as [evs2 x2].
    cbn [fst] in *. unfold file_events in *. cbn [List.filter is_file_event].
    rewrite Hm, Hname. f_equal. apply IH; simpl; congruence.
Qed.

(** The events of [lastResort], which has no filter and the default
    format. *)
Lemma Handler_handle_lastResort (s : state) (asctime : string) (record : LogRecord) :
  Handler_handle s asctime lastResort record = Ok (record, Wrote StreamHandler (msg record)).
Proof. unfold Handler_handle. simpl. rewrite append_nil_r. reflexivity. Qed.

(** The events of a call under the invariant: lines of the stream
    format, lines of the file format, or the bare message when the logger
    has no handler and [lastResort] steps in. *)
Lemma Logger_log_events_form_ok (s : state) (sev : severity) (m asctime : string) :
  registry_ok s →
  ∀ e, e ∈ Logger_log sev m asctime s →
       (∃ k, e = stream_event s sev asctime (copies __indentunit__ k +:+ m)) ∨
       (∃ path k, e = Wrote (FileHandler path)
                        (file_line sev asctime (copies __indentunit__ k +:+ m))) ∨
       (logger_handlers s = [] ∧ e = Wrote StreamHandler m).
Proof.
  intros Hok e He. unfold Logger_log, Logger_call in He.
  destruct (isEnabledFor s (levelno_of sev)); [|apply elem_of_nil in He; contradiction].
  unfold callHandlers in He. destruct (logger_handlers s) as [|ref refs] eqn:Hl.
  - destruct (h_level lastResort <=? levelno (makeRecord sev m))%Z;
      [|apply elem_of_nil in He; contradiction].
    rewrite Handler_handle_lastResort in He.
    apply list_elem_of_singleton in He. subst e. right. right. split; reflexivity.
  - pose proof (registry_ok_shaped s Hok) as Hsh. rewrite Hl in Hsh.
    destruct (str_mul __indentunit__ (__indentlevel__ s)) as [prefix|x] eqn:Hp.
    + destruct (str_mul_Ok _ _ Hp) as [_ ->].
      destruct (loop_events_form s asctime sev m (ref :: refs) _ Hsh Hp (makeRecord sev m)
                  eq_refl eq_refl (ex_intro _ 0 eq_refl) e He) as [H | H]; tauto.
    + rewrite (loop_raise s asctime (ref :: refs) x Hsh Hp) in He.
      apply elem_of_nil in He. contradiction.
Qed.

Section FileChannel.

Context (can_open : string → bool).

(** C7: in every reachable state the file handler has the indent filter
    alone and the file format, so no record reaches the colour filter on
    its way to the file.  The file events of a call are the same whatever
    the Colour Mode flag.  Every file event is a written line made of the
    time stamp, the severity name centred in 8 columns and the message
    behind indent units; when neither the time stamp nor the message of
    the caller holds an escape character, the line holds none. *)
Theorem file_channel_never_coloured (cs : list call) (sev : severity) (m asctime : string) :
  let s := run can_open cs initial_state in
  (∀ ref, __filechannel__ s = Some ref →
     ∃ h, store s !! ref = Some h ∧
          h_filters h = [IndentFilter] ∧ h_formatter h = Some file_format) ∧
  (∀ b, file_events (Logger_log sev m asctime (colour_stream b s)) =
        file_events (Logger_log sev m asctime s)) ∧
  (∀ e, e ∈ file_events (Logger_log sev m asctime s) →
     ∃ path k, e = Wrote (FileHandler path)
                     (file_line sev asctime (copies __indentunit__ k +:+ m))) ∧
  (∀ path line,
     Wrote (FileHandler path) line ∈ Logger_log sev m asctime s →
     has_escape asctime = false → has_escape m = false →
     has_escape line = false).
Proof.
  intros s. assert (registry_ok s) as Hok by apply reachable_ok.
  pose proof (registry_ok_shaped s Hok) as Hsh.
  assert (∀ e, e ∈ Logger_log sev m asctime s → is_file_event e = true →
               ∃ path k, e = Wrote (FileHandler path)
                               (file_line sev asctime (copies __indentunit__ k +:+ m)))
    as Hform.
  { intros e He Hfile.
    destruct (Logger_log_events_form_ok s sev m asctime Hok e He)
      as [[k ->] | [H | [_ ->]]]; [|exact H|discriminate].
    unfold stream_event in Hfile. destruct (stream_line _ _ _ _); discriminate. }
  split; [|split; [|split]].
  - intros ref Hc. destruct (ok_file s Hok ref Hc) as (h & Hh & _ & Hf & Hfmt). eauto.
  - intros b. unfold Logger_log, Logger_call.
    change (isEnabledFor (colour_stream b s) (levelno_of sev))
      with (isEnabledFor s (levelno_of sev)).
    destruct (isEnabledFor s (levelno_of sev)); [|reflexivity].
    unfold callHandlers. change (logger_handlers (colour_stream b s)) with (logger_handlers s).
    destruct (logger_handlers s) as [|ref refs] eqn:Hl.
    + destruct (h_level lastResort <=? levelno (makeRecord sev m))%Z; [|reflexivity].
      rewrite !Handler_handle_lastResort. reflexivity.
    + destruct (str_mul __indentunit__ (__indentlevel__ s)) as [prefix|x] eqn:Hp.
      * apply (loop_file_events_colour s b asctime (ref :: refs) prefix Hsh Hp);
          reflexivity.
      * rewrite (loop_raise s asctime (ref :: refs) x Hsh Hp).
        rewrite (loop_raise (colour_stream b s) asctime (ref :: refs) x Hsh Hp).
        reflexivity.
  - intros e He. unfold file_events in He.
    apply list_elem_of_In, List.filter_In in He as [He Hfile].
    apply Hform; [apply list_elem_of_In, He | exact Hfile].
  - intros path line He Ht Hm.
    destruct (Hform _ He eq_refl) as (path' & k & [= _ ->]).
    apply has_escape_file_line; [exact Ht|].
    rewrite has_escape_append, Hm, has_escape_copies; reflexivity.
Qed.

End FileChannel.

Lemma file_channel_never_coloured_witness :
  let s := run (fun _ => true)
             [CallToFile "a.log" None; CallSetIndent (PyInt 1)] initial_state in
  (∃ h, store s !! 1 = Some h ∧
        h_filters h = [IndentFilter] ∧ h_formatter h = Some file_format) ∧
  (∃ path k,
     Wrote (FileHandler "a.log") "T                       | CRITICAL |     boom" =
     Wrote (FileHandler path) (file_line Critical "T" (copies __indentunit__ k +:+ "boom"))) ∧
  has_escape "T                       | CRITICAL |     boom" = false.
Proof.
  intros s.
  pose proof (file_channel_never_coloured (fun _ => true)
                [CallToFile "a.log" None; CallSetIndent (PyInt 1)]
                Critical "boom" "T") as (Hfilters & _ & Hform & Hesc).
  split; [|split].
  - apply Hfilters. reflexivity.
  - apply Hform. apply list_elem_of_In. vm_compute. left. reflexivity.
  - apply (Hesc "a.log"); [|reflexivity|reflexivity].
    apply list_elem_of_In. vm_compute. right. left. reflexivity.
Defined.

(** * Further properties of the module *)

(** ** Creating the file channel *)

Section FileCreation.

Context (can_open : string → bool).

(** X1: the first [to_file], in a reachable state without file channel
    and with a path that opens, makes one new handler object: a file
    handler on that path, at the level asked (INFO for [None]), with the
    indent filter alone and the file format.  [__filechannel__] holds it,
    the logger has it after the handlers it had, and it is the logger's only
    file handler.  The stream channel, every older object and every other
    global stay. *)
Theorem to_file_first_call_creates_channel (cs : list call) (logpath : string)
  (lvl : option Z) :
  let s := run can_open cs initial_state in
  __filechannel__ s = None →
  can_open logpath = true →
  ∃ s',
    to_file can_open logpath lvl s = Ok s' ∧
    __filechannel__ s' = Some (next_ref s) ∧
    store s' !! next_ref s =
      Some (mkHandler (FileHandler logpath) (level_or logging.INFO lvl)
              [IndentFilter] (Some file_format)) ∧
    store s !! next_ref s = None ∧
    (∀ r, r ≠ next_ref s → store s' !! r = store s !! r) ∧
    logger_handlers s' = (logger_handlers s ++ [next_ref s])%list ∧
    attached is_file s' = [next_ref s] ∧
    attached is_stream s' = attached is_stream s ∧
    __streamchannel__ s' = __streamchannel__ s ∧
    __colouredstream__ s' = __colouredstream__ s ∧
    __indentlevel__ s' = __indentlevel__ s ∧
    logger_level s' = logger_level s ∧
    manager_disable s' = manager_disable s.
Proof.
  intros s Hc Hopen.
  assert (registry_ok s) as Hok by apply reachable_ok.
  pose proof (registry_ok_fresh s Hok) as Hfresh.
  pose proof (to_file_absent can_open s logpath lvl Hc Hfresh Hopen) as E.
  eexists. split; [exact E|].
  assert (registry_ok
            (mkState
               (<[next_ref s :=
                    mkHandler (FileHandler logpath) (level_or __filechannel_defaultlvl__ lvl)
                      [IndentFilter] (Some file_format)]> (store s))
               (S (next_ref s)) (__streamchannel__ s) (Some (next_ref s))
               (__colouredstream__ s) (__indentlevel__ s) (logger_level s)
               (logger_handlers s ++ [next_ref s]) (manager_disable s))) as Hok'.
  { eapply to_file_ok; [exact Hok | exact E]. }
  assert (store s !! next_ref s = None) as Hnone.
  { destruct (store s !! next_ref s) eqn:Hl; [|reflexivity].
    assert (next_ref s < next_ref s); [apply (ok_bound s Hok); eauto | lia]. }
  split; [reflexivity|]. split; [simpl; apply lookup_insert_eq|].
  split; [exact Hnone|].
  split; [intros r Hr; simpl; apply lookup_insert_ne; congruence|].
  split; [reflexivity|].
  split; [rewrite (attached_is_file _ Hok'); reflexivity|].
  split; [rewrite (attached_is_stream _ Hok'), (attached_is_stream _ Hok); reflexivity|].
  repeat split.
Qed.


(** X3: in every reachable state the logger has at most one file
    handler, and it has one exactly when [__filechannel__] is set.  After
    a first [to_file] that succeeds from a state without file channel, a
    second [to_file], on whatever path, leaves one file handler: the one
    on the first path, now at the second level.  And [to_file] repeated
    with the same level changes nothing more. *)
Theorem to_file_twice_keeps_first_path (cs : list call) (p1 p2 : string)
  (L1 L2 : option Z) :
  let s := run can_open cs initial_state in
  (List.length (attached is_file s) ≤ 1)%nat ∧
  attached is_file s =
    match __filechannel__ s with Some ref => [ref] | None => [] end ∧
  ∀ s1,
    __filechannel__ s = None →
    to_file can_open p1 L1 s = Ok s1 →
    ∃ s2 ref,
      to_file can_open p2 L2 s1 = Ok s2 ∧
      attached is_file s2 = [ref] ∧
      store s2 !! ref =
        Some (mkHandler (FileHandler p1) (level_or logging.INFO L2)
                [IndentFilter] (Some file_format)) ∧
      to_file can_open p2 L2 s2 = Ok s2.
Proof.
  intros s.
  assert (registry_ok s) as Hok by apply reachable_ok.
  split.
  { rewrite (attached_is_file s Hok). destruct (__filechannel__ s); simpl; lia. }
  split; [apply attached_is_file, Hok|].
  intros s1 Hc E1.
  assert (can_open p1 = true) as Hopen.
  { destruct (can_open p1) eqn:Hopen; [reflexivity|].
    rewrite (to_file_cannot_open can_open s p1 L1 Hc Hopen) in E1. discriminate. }
  pose proof (to_file_ok can_open s s1 p1 L1 Hok E1) as Hok1.
  rewrite (to_file_absent can_open s p1 L1 Hc (registry_ok_fresh s Hok) Hopen) in E1.
  injection E1 as <-.
  set (s1 := mkState _ _ _ _ _ _ _ _ _) in *.
  set (l2 := level_or __filechannel_defaultlvl__ L2).
  exists (update (next_ref s) (setLevel l2) s1), (next_ref s).
  assert (registry_ok (update (next_ref s) (setLevel l2) s1)) as Hok2
    by apply registry_ok_setLevel, Hok1.
  split; [apply to_file_present; reflexivity|].
  split; [rewrite (attached_is_file _ Hok2); reflexivity|].
  split.
  { simpl. rewrite lookup_alter_eq, lookup_insert_eq. reflexivity. }
  rewrite (to_file_present can_open (update (next_ref s) (setLevel l2) s1)
             (next_ref s) p2 L2 eq_refl).
  f_equal. unfold update, set_store. simpl. f_equal.
  apply map_eq. intros r.
  destruct (decide (next_ref s = r)) as [<- | Hne].
  - rewrite !lookup_alter_eq, lookup_insert_eq. reflexivity.
  - rewrite !lookup_alter_ne by exact Hne. reflexivity.
Qed.

End FileCreation.

Lemma to_file_first_call_creates_channel_witness :
  ∃ s',
    to_file (fun _ => true) "a.log" (Some logging.ERROR) initial_state = Ok s' ∧
    __filechannel__ s' = Some 1 ∧
    logger_handlers s' = [0; 1] ∧
    attached is_file s' = [1].
Proof.
  destruct (to_file_first_call_creates_channel (fun _ => true) [] "a.log"
              (Some logging.ERROR))
    as (s' & E & Hc & _ & _ & _ & Hl & Ha & _).
  - reflexivity.
  - reflexivity.
  - exists s'. repeat split; assumption.
Defined.


Lemma to_file_twice_keeps_first_path_witness :
  ∃ s2 ref,
    to_file (String.eqb "a.log") "b.log" (Some logging.ERROR)
      (run (String.eqb "a.log") [CallToFile "a.log" None] initial_state) = Ok s2 ∧
    attached is_file s2 = [ref] ∧
    store s2 !! ref =
      Some (mkHandler (FileHandler "a.log") logging.ERROR [IndentFilter] (Some file_format)).
Proof.
  destruct (to_file_twice_keeps_first_path (String.eqb "a.log") [] "a.log" "b.log"
              None (Some logging.ERROR)) as (_ & _ & H).
  destruct (H (run (String.eqb "a.log") [CallToFile "a.log" None] initial_state))
    as (s2 & ref & E & Ha & Hs & _).
  - reflexivity.
  - vm_compute. reflexivity.
  - exists s2, ref. split; [exact E|]. split; [exact Ha | exact Hs].
Defined.

(** ** Calling [to_stream] again *)

Lemma setLevel_same (h : handler) : setLevel (h_level h) h = h.
Proof. destruct h. reflexivity. Qed.

Lemma alter_setLevel_same (m : gmap nat handler) (ref : nat) (h : handler) :
  m !! ref = Some h → alter (setLevel (h_level h)) ref m = m.
Proof.
  intros H. apply map_eq. intros r.
  destruct (decide (ref = r)) as [<- | Hne].
  - rewrite lookup_alter_eq, H. simpl. rewrite setLevel_same. reflexivity.
  - rewrite lookup_alter_ne by exact Hne. reflexivity.
Qed.

(** What [to_stream] establishes, whichever path it takes. *)
Lemma to_stream_post (s : state) (lvl : option Z) (colour : bool) :
  registry_ok s →
  ∃ ref h,
    __streamchannel__ (to_stream lvl colour s) = Some ref ∧
    store (to_stream lvl colour s) !! ref = Some h ∧
    h_level h = level_or __streamchannel_defaultlvl__ lvl ∧
    logger_level (to_stream lvl colour s) = logging.DEBUG ∧
    __colouredstream__ (to_stream lvl colour s) = colour.
Proof.
  intros Hok. destruct (__streamchannel__ s) as [ref|] eqn:Hc.
  - destruct (ok_stream s Hok ref Hc) as (h & Hh & _).
    rewrite (to_stream_present s ref lvl colour Hc).
    exists ref, (setLevel (level_or __streamchannel_defaultlvl__ lvl) h).
    split; [exact Hc|]. split; [simpl; rewrite lookup_alter_eq, Hh; reflexivity|].
    repeat split.
  - rewrite (to_stream_absent s lvl colour Hc (registry_ok_fresh s Hok)).
    eexists _, _. split; [reflexivity|]. split; [simpl; apply lookup_insert_eq|].
    repeat split.
Qed.

Section StreamAgain.

Context (can_open : string → bool).

(** X4: [to_stream] is idempotent on reachable states: a second call
    with the same level and colour leaves the state exactly as the first
    call left it, with no new object, no new handler, and the same levels and
    flags. *)
Theorem to_stream_idempotent (cs : list call) (lvl : option Z) (colour : bool) :
  let s := run can_open cs initial_state in
  to_stream lvl colour (to_stream lvl colour s) = to_stream lvl colour s.
Proof.
  intros s. assert (registry_ok s) as Hok by apply reachable_ok.
  destruct (to_stream_post s lvl colour Hok) as (ref & h & Hc & Hh & Hl & Hlev & Hcol).
  rewrite (to_stream_present (to_stream lvl colour s) ref lvl colour Hc).
  destruct (to_stream lvl colour s) as [st nr sc fc co il ll lh md].
  simpl in *. subst. unfold set_colouredstream, update, set_store. simpl.
  rewrite <- Hl, (alter_setLevel_same st ref h Hh). reflexivity.
Qed.

(** X5: removing the stream channel and enabling it again does not bring
    the old handler back: [to_stream] makes a new object, at the level
    asked (INFO for [None], whatever level the old one had), and the
    logger gets it after the handlers left, so a live file handler now
    runs before the stream handler. *)
Theorem reenabled_stream_is_new_and_last (cs : list call) (lvl : option Z)
  (colour : bool) (old : nat) :
  let s := run can_open cs initial_state in
  let s' := to_stream lvl colour (remove_stream_channel s) in
  __streamchannel__ s = Some old →
  __streamchannel__ s' = Some (next_ref s) ∧
  next_ref s ≠ old ∧
  store s' !! next_ref s =
    Some (mkHandler StreamHandler (level_or logging.INFO lvl)
            [IndentFilter; ColourFilter] (Some stream_format)) ∧
  logger_handlers s' =
    (match __filechannel__ s with Some rf => [rf] | None => [] end ++ [next_ref s])%list ∧
  (old ∉ logger_handlers s').
Proof.
  intros s s' Hc.
  assert (registry_ok s) as Hok by apply reachable_ok.
  assert (registry_ok (remove_stream_channel s)) as Hok1
    by apply remove_stream_channel_ok, Hok.
  assert (old ∈ logger_handlers s) as Hin by (apply (ok_attached s Hok); tauto).
  assert (remove_stream_channel s =
          set_streamchannel None
            (set_logger_handlers (remove_first old (logger_handlers s)) s)) as E.
  { unfold remove_stream_channel, removeHandler.
    rewrite Hc, (proj2 (existsb_eqb_elem _ _) Hin). reflexivity. }
  assert (old < next_ref s) as Hlt.
  { apply (ok_bound s Hok). destruct (ok_stream s Hok old Hc) as (h & -> & _). eauto. }
  assert (logger_handlers (remove_stream_channel s) =
          match __filechannel__ s with Some rf => [rf] | None => [] end) as Hl.
  { pose proof (ok_nodup _ Hok1) as Hnd. pose proof (ok_attached _ Hok1) as Ha.
    rewrite E in Ha. simpl in Ha. rewrite E in Hnd. simpl in Hnd. rewrite E. simpl.
    destruct (remove_first old (logger_handlers s)) as [|x [|y l]].
    - destruct (__filechannel__ s) as [rf|]; [|reflexivity].
      assert (rf ∈ []) as Hrf by (apply Ha; tauto). apply elem_of_nil in Hrf. contradiction.
    - assert (None = Some x ∨ __filechannel__ s = Some x) as [? | ->]
        by (apply Ha, elem_of_cons; tauto); [discriminate | reflexivity].
    - apply NoDup_cons in Hnd as [Hxy _].
      assert (None = Some x ∨ __filechannel__ s = Some x) as [? | Hx]
        by (apply Ha, elem_of_cons; tauto); [discriminate|].
      assert (None = Some y ∨ __filechannel__ s = Some y) as [? | Hy]
        by (apply Ha; rewrite !elem_of_cons; tauto); [discriminate|].
      exfalso. apply Hxy, elem_of_cons. left. congruence. }
  unfold s'.
  rewrite (to_stream_absent (remove_stream_channel s) lvl colour);
    [| rewrite E; reflexivity | apply registry_ok_fresh, Hok1].
  replace (next_ref (remove_stream_channel s)) with (next_ref s) by (rewrite E; reflexivity).
  simpl. rewrite Hl.
  split; [reflexivity|]. split; [lia|]. split; [apply lookup_insert_eq|].
  split; [reflexivity|].
  rewrite elem_of_app, list_elem_of_singleton. intros [Hold | ->]; [|lia].
  destruct (__filechannel__ s) as [rf|] eqn:Hf.
  - apply list_elem_of_singleton in Hold. subst rf.
    exact (registry_ok_distinct s old old Hok Hc Hf eq_refl).
  - apply elem_of_nil in Hold. exact Hold.
Qed.

(** X6: in every reachable state the logger's handlers are exactly the
    handlers the two globals hold, each once and each an object of the
    store, so at most two; the two globals never hold the same object; and
    the stream handler has the indent and colour filters with the stream
    format, the file handler the indent filter with the file format. *)
Theorem registry_exact (cs : list call) :
  let s := run can_open cs initial_state in
  NoDup (logger_handlers s) ∧
  (∀ ref, ref ∈ logger_handlers s ↔
          (__streamchannel__ s = Some ref ∨ __filechannel__ s = Some ref)) ∧
  (∀ ref, ref ∈ logger_handlers s → is_Some (store s !! ref)) ∧
  (List.length (logger_handlers s) ≤ 2)%nat ∧
  (∀ ref, ¬ (__streamchannel__ s = Some ref ∧ __filechannel__ s = Some ref)) ∧
  (∀ ref h, __streamchannel__ s = Some ref → store s !! ref = Some h →
            h_kind h = StreamHandler ∧ h_filters h = [IndentFilter; ColourFilter] ∧
            h_formatter h = Some stream_format) ∧
  (∀ ref h, __filechannel__ s = Some ref → store s !! ref = Some h →
            is_file h = true ∧ h_filters h = [IndentFilter] ∧
            h_formatter h = Some file_format).
Proof.
  intros s. assert (registry_ok s) as Hok by apply reachable_ok.
  pose proof Hok as [B S F N A].
  split; [exact N|]. split; [exact A|]. split; [|split; [|split; [|split]]].
  - intros ref Hin. apply A in Hin as [Hc | Hc].
    + destruct (S ref Hc) as (h & -> & _). eauto.
    + destruct (F ref Hc) as (h & -> & _). eauto.
  - destruct (logger_handlers s) as [|x [|y [|z l]]] eqn:Hl; simpl; try lia.
    exfalso.
    apply NoDup_cons in N as [Hx N]. apply NoDup_cons in N as [Hy _].
    assert (∀ r, r ∈ x :: y :: z :: l →
                 __streamchannel__ s = Some r ∨ __filechannel__ s = Some r) as A'
      by (intros r; apply A).
    assert (x ≠ y) by (intros ->; apply Hx, elem_of_cons; tauto).
    assert (x ≠ z) by (intros ->; apply Hx; rewrite !elem_of_cons; tauto).
    assert (y ≠ z) by (intros ->; apply Hy, elem_of_cons; tauto).
    destruct (A' x) as [Hx' | Hx']; [rewrite !elem_of_cons; tauto | |];
      destruct (A' y) as [Hy' | Hy']; try (rewrite !elem_of_cons; tauto);
      destruct (A' z) as [Hz' | Hz']; try (rewrite !elem_of_cons; tauto);
      congruence.
  - intros ref [H1 H2]. exact (registry_ok_distinct s ref ref Hok H1 H2 eq_refl).
  - intros ref h Hc Hh. destruct (S ref Hc) as (h' & Hh' & Hs).
    rewrite Hh in Hh'. injection Hh' as <-. exact Hs.
  - intros ref h Hc Hh. destruct (F ref Hc) as (h' & Hh' & Hs).
    rewrite Hh in Hh'. injection Hh' as <-.
    split; [apply file_shape_is_file, Hs | apply Hs].
Qed.

End StreamAgain.

Lemma reenabled_stream_is_new_and_last_witness :
  let s := run (fun _ => true) [CallToFile "a.log" None] initial_state in
  let s' := to_stream (Some logging.DEBUG) false (remove_stream_channel s) in
  __streamchannel__ s' = Some 2 ∧ logger_handlers s' = [1; 2].
Proof.
  intros s s'.
  destruct (reenabled_stream_is_new_and_last (fun _ => true) [CallToFile "a.log" None]
              (Some logging.DEBUG) false 0) as (H1 & _ & _ & H2 & _).
  - reflexivity.
  - split; [exact H1 | exact H2].
Defined.

Lemma registry_exact_witness :
  let s := run (fun _ => true) [CallToFile "a.log" None] initial_state in
  is_Some (store s !! 1) ∧
  (∀ h, store s !! 0 = Some h → h_filters h = [IndentFilter; ColourFilter]).
Proof.
  intros s.
  pose proof (registry_exact (fun _ => true) [CallToFile "a.log" None])
    as (_ & Ha & Hs & _ & _ & Hstream & _).
  split.
  - apply Hs, Ha. right. reflexivity.
  - intros h Hh. apply (Hstream 0 h eq_refl Hh).
Defined.

(** ** Where the events come from *)

Lemma run_filters_levelno (s : state) (fs : list log_filter) (record record' : LogRecord) :
  run_filters s fs record = Ok record' → levelno record' = levelno record.
Proof.
  revert record. induction fs as [|f fs IH]; intros record; cbn [run_filters].
  - intros [= <-]. reflexivity.
  - destruct (run_filter s f record) as [r1|e] eqn:Hf; [|discriminate].
    intros H. rewrite (IH _ H). destruct f; cbn [run_filter] in Hf.
    + unfold IndentFilter_filter in Hf.
      destruct (str_mul __indentunit__ (__indentlevel__ s)); [|discriminate].
      injection Hf as <-. reflexivity.
    + injection Hf as <-. apply ColourFilter_filter_keeps.
Qed.

Lemma Handler_handle_sink (s : state) (asctime : string) (h : handler)
  (record record' : LogRecord) (ev : event) :
  Handler_handle s asctime h record = Ok (record', ev) →
  levelno record' = levelno record ∧ event_sink ev = h_kind h.
Proof.
  unfold Handler_handle.
  destruct (run_filters s (h_filters h) record) as [r1|e] eqn:Hf; [|discriminate].
  cbn. intros [= <- <-]. split; [exact (run_filters_levelno _ _ _ _ Hf)|].
  destruct (format _ _ _); reflexivity.
Qed.

(** An event of the loop comes from an attached handler that admits the
    record. *)
Lemma loop_sink_admitting (s : state) (asctime : string) (refs : list nat)
  (record : LogRecord) (e : event) :
  e ∈ fst (callHandlers_loop s asctime refs record) →
  ∃ h, h ∈ admitting s (levelno record) refs ∧ h_kind h = event_sink e.
Proof.
  revert record. induction refs as [|ref refs IH]; intros record He.
  - apply elem_of_nil in He. contradiction.
  - cbn [callHandlers_loop] in He. cbn [admitting flat_map].
    destruct (store s !! ref) as [h|]; [|exact (IH _ He)].
    destruct (h_level h <=? levelno record)%Z; [|exact (IH _ He)].
    destruct (Handler_handle s asctime h record) as [[record' ev]|x] eqn:Hh;
      [|apply elem_of_nil in He; contradiction].
    destruct (Handler_handle_sink _ _ _ _ _ _ Hh) as [Hno Hsink].
    destruct (callHandlers_loop s asctime refs record') as [evs e0] eqn:Hloop.
    cbn [fst] in He. apply elem_of_cons in He as [-> | He].
    + exists h. split; [apply elem_of_app; left; apply elem_of_cons; tauto | congruence].
    + destruct (IH record') as (h' & Hin & Hk); [rewrite Hloop; exact He|].
      exists h'. split; [|exact Hk]. apply elem_of_app. right.
      rewrite <- Hno. exact Hin.
Qed.

(** ** What a call writes *)

Lemma has_escape_stream_line_colour_off (s : state) (sev : severity)
  (asctime body line : string) :
  __colouredstream__ s = false →
  has_escape asctime = false → has_escape body = false →
  stream_line s sev asctime body = Some line → has_escape line = false.
Proof.
  intros Hc Ht Hb. rewrite (stream_line_colour_off s sev asctime body Hc).
  intros [= <-]. exact (has_escape_file_line sev asctime body Ht Hb).
Qed.

Lemma file_events_nil (evs : list event) :
  (∀ e, e ∈ evs → is_file_event e = false) → file_events evs = [].
Proof.
  induction evs as [|e evs IH]; intros H; [reflexivity|].
  unfold file_events. simpl. rewrite (H e) by (apply elem_of_cons; tauto).
  apply IH. intros e' He'. apply H, elem_of_cons. tauto.
Qed.



Section Events.

Context (can_open : string → bool).


(** X8: with Colour Mode off, no line a call writes holds an escape
    character, on any channel, when the time stamp and the message hold
    none. *)
Theorem colour_off_writes_no_escape (cs : list call) (sev : severity)
  (m asctime : string) (sink : handler_kind) (line : string) :
  let s := run can_open cs initial_state in
  __colouredstream__ s = false →
  has_escape asctime = false → has_escape m = false →
  Wrote sink line ∈ Logger_log sev m asctime s →
  has_escape line = false.
Proof.
  intros s Hc Ht Hm He. assert (registry_ok s) as Hok by apply reachable_ok.
  assert (∀ k, has_escape (copies __indentunit__ k +:+ m) = false) as Hbody.
  { intros k. rewrite has_escape_append, Hm, has_escape_copies; reflexivity. }
  destruct (Logger_log_events_form_ok s sev m asctime Hok _ He)
    as [[k E] | [(path & k & E) | [_ E]]].
  - unfold stream_event in E.
    destruct (stream_line s sev asctime (copies __indentunit__ k +:+ m)) as [l|] eqn:Hl;
      [|discriminate].
    injection E as _ ->.
    exact (has_escape_stream_line_colour_off s sev asctime _ l Hc Ht (Hbody k) Hl).
  - injection E as _ ->. apply has_escape_file_line; [exact Ht | apply Hbody].
  - injection E as _ ->. exact Hm.
Qed.

(** X9: without file channel no call writes a file event, in any
    reachable state; so right after [remove_file_channel] nothing more
    goes to the file. *)
Theorem no_file_channel_no_file_event (cs : list call) (sev : severity) (m asctime : string) :
  let s := run can_open cs initial_state in
  (__filechannel__ s = None → file_events (Logger_log sev m asctime s) = []) ∧
  file_events (Logger_log sev m asctime (remove_file_channel s)) = [].
Proof.
  intros s.
  assert (∀ s', registry_ok s' → __filechannel__ s' = None →
                file_events (Logger_log sev m asctime s') = []) as Hgen.
  { intros s' Hok Hc. apply file_events_nil. intros e He.
    destruct (Logger_log_events_form_ok s' sev m asctime Hok e He)
      as [[k ->] | [(path & k & ->) | [_ ->]]]; [| |reflexivity].
    - unfold stream_event. destruct (stream_line _ _ _ _); reflexivity.
    - exfalso.
      assert (∃ h, h ∈ admitting s' (levelno_of sev) (logger_handlers s') ∧
                   h_kind h = FileHandler path) as (h & Hin & Hk).
      { clear Hc. unfold Logger_log, Logger_call in He.
        destruct (isEnabledFor s' (levelno_of sev)); [|apply elem_of_nil in He; contradiction].
        unfold callHandlers in He. destruct (logger_handlers s') as [|ref refs] eqn:Hl.
        - destruct (h_level lastResort <=? _)%Z; [|apply elem_of_nil in He; contradiction].
          rewrite Handler_handle_lastResort in He.
          apply list_elem_of_singleton in He. discriminate.
        - apply (loop_sink_admitting s' asctime (ref :: refs) _ _ He). }
      unfold admitting in Hin. apply list_elem_of_In, in_flat_map in Hin as (ref & Href & Hin).
      apply list_elem_of_In in Href.
      destruct (store s' !! ref) as [h'|] eqn:Hh; [|destruct Hin].
      destruct (h_level h' <=? levelno_of sev)%Z; [|destruct Hin].
      destruct Hin as [-> | []].
      apply (ok_attached s' Hok) in Href as [Hr | Hr]; [|congruence].
      destruct (ok_stream s' Hok ref Hr) as (h2 & Hh2 & Hk2 & _). congruence. }
  assert (registry_ok s) as Hok by apply reachable_ok.
  split.
  - apply Hgen, Hok.
  - apply Hgen; [apply remove_file_channel_ok, Hok|].
    unfold remove_file_channel. destruct (__filechannel__ s) eqn:Hc; [reflexivity | exact Hc].
Qed.

End Events.

Lemma colour_off_writes_no_escape_witness :
  has_escape "T                       | CRITICAL |   boom" = false.
Proof.
  apply (colour_off_writes_no_escape (fun _ => true)
           [CallColourStream false; CallSetIndent (PyInt 1)]
           Critical "boom" "T" StreamHandler);
    [reflexivity | reflexivity | reflexivity |].
  apply list_elem_of_In. vm_compute. left. reflexivity.
Defined.


Lemma no_file_channel_no_file_event_witness :
  file_events (Logger_log Error "boom" "T" initial_state) = [].
Proof.
  destruct (no_file_channel_no_file_event (fun _ => true) [] Error "boom" "T") as [H _].
  apply H. reflexivity.
Defined.

(** ** Colour is decoration only *)

Lemma strip_from_append (st : bool) (a b : string) :
  strip_from st (a +:+ b) = strip_from st a +:+ strip_from (escape_after st a) b.
Proof.
  revert st. induction a as [|c a IH]; intros st; [reflexivity|].
  rewrite append_cons. cbn [strip_from escape_after].
  destruct st; [destruct (Ascii.eqb c "m") | destruct (Ascii.eqb c ESC)];
    rewrite IH; reflexivity.
Qed.

Lemma escape_after_append (st : bool) (a b : string) :
  escape_after st (a +:+ b) = escape_after (escape_after st a) b.
Proof.
  revert st. induction a as [|c a IH]; intros st; [reflexivity|].
  rewrite append_cons. cbn [escape_after].
  destruct st; [destruct (Ascii.eqb c "m") | destruct (Ascii.eqb c ESC)];
    rewrite IH; reflexivity.
Qed.

(** A text without escape character is rendered as it is. *)
Lemma strip_clean (a : string) :
  has_escape a = false → strip_from false a = a ∧ escape_after false a = false.
Proof.
  induction a as [|c a IH]; intros H; [split; reflexivity|].
  simpl in H. apply orb_false_iff in H as [Hc Ha].
  cbn [strip_from escape_after]. rewrite Hc.
  destruct (IH Ha) as [-> ->]. split; reflexivity.
Qed.

Lemma has_escape_format_left (w : nat) (a : string) :
  has_escape a = false → has_escape (format_left w a) = false.
Proof.
  intros H. unfold format_left, spaces.
  rewrite has_escape_append, H, has_escape_copies; reflexivity.
Qed.

(** Stripping a line made of a clean time column, a label and a message
    part that both end outside an escape sequence. *)
Lemma strip_line (a lab lab' fm body : string) :
  has_escape a = false →
  strip_from false lab = lab' → escape_after false lab = false →
  strip_from false fm = body →
  strip_escapes (a +:+ " | " +:+ lab +:+ " | " +:+ fm) =
  a +:+ " | " +:+ lab' +:+ " | " +:+ body.
Proof.
  intros Ha Hlab Hend Hfm. destruct (strip_clean a Ha) as [Hs He].
  unfold strip_escapes.
  rewrite strip_from_append, Hs, He.
  rewrite (strip_from_append false " | "). cbn [escape_after Ascii.eqb]. simpl (strip_from false " | ").
  rewrite (strip_from_append false lab), Hlab, Hend.
  rewrite (strip_from_append false " | "). simpl (strip_from false " | ").
  simpl (escape_after false " | "). rewrite Hfm. reflexivity.
Qed.

(** The red wrapping of the CRITICAL message strips to the message. *)
Lemma strip_red (body : string) :
  has_escape body = false →
  strip_from false (esc "[91m" +:+ body +:+ esc "[0m") = body.
Proof.
  intros Hb. destruct (strip_clean body Hb) as [Hs He].
  rewrite (strip_from_append false (esc "[91m")).
  simpl (strip_from false (esc "[91m")). simpl (escape_after false (esc "[91m")).
  change (EmptyString +:+ ?x) with x.
  rewrite strip_from_append, Hs, He.
  simpl (strip_from false (esc "[0m")). apply append_nil_r.
Qed.

(** X10: the colours change nothing of the text: whatever the Colour
    Mode, the line of the stream channel, once its escape sequences are
    stripped, is the line the file channel writes for the same severity,
    time stamp and message (when these two hold no escape character).
    This covers the CRITICAL message, which the colour filter wraps in
    red. *)
Theorem stream_line_renders_as_file_line (s : state) (sev : severity)
  (asctime body : string) :
  has_escape asctime = false → has_escape body = false →
  ∃ line,
    stream_line s sev asctime body = Some line ∧
    strip_escapes line = file_line sev asctime body.
Proof.
  intros Ht Hb.
  pose proof (has_escape_format_left 23 asctime Ht) as Hleft.
  destruct (strip_clean body Hb) as [Hs2 _].
  destruct (__colouredstream__ s) eqn:Hc.
  2:{ rewrite (stream_line_colour_off s sev asctime body Hc).
      eexists. split; [reflexivity|].
      apply strip_clean. apply has_escape_file_line; assumption. }
  unfold stream_line, ColourFilter_filter. rewrite Hc.
  destruct sev; simpl; rewrite append_nil_r;
    (eexists; split; [reflexivity|]);
    unfold file_line;
    apply strip_line;
    first [ exact Hleft | exact Hs2 | apply strip_red; exact Hb | reflexivity ].
Qed.

Lemma stream_line_renders_as_file_line_witness :
  ∃ line,
    stream_line initial_state Critical "2020-01-01 00:00:00,000" "boom" = Some line ∧
    strip_escapes line = "2020-01-01 00:00:00,000 | CRITICAL | boom".
Proof.
  apply (stream_line_renders_as_file_line initial_state Critical
           "2020-01-01 00:00:00,000" "boom"); reflexivity.
Defined.

(** ** A record of another level *)

(** X11: the colour filter has no branch for a level that is none of the
    five standard ones.  With Colour Mode on it returns such a record as
    it came, without label, and a stream handler that gets it as a fresh
    record ends in a formatting error instead of a line.  With Colour Mode
    off the filter labels every record, and the same handler writes it.
    This is when the indent prefix can be built; when it cannot, the
    handler raises in both modes before the colour filter runs. *)
Theorem other_level_unlabelled_in_colour (s : state) (asctime : string) (h : handler)
  (record : LogRecord) :
  levelno record ≠ logging.DEBUG → levelno record ≠ logging.INFO →
  levelno record ≠ logging.WARNING → levelno record ≠ logging.ERROR →
  levelno record ≠ logging.CRITICAL →
  levellabel record = None →
  stream_shape h →
  ColourFilter_filter (colour_stream true s) record = record ∧
  (∀ prefix, str_mul __indentunit__ (__indentlevel__ s) = Ok prefix →
     Handler_handle (colour_stream true s) asctime h record =
       Ok (set_msg record (prefix +:+ msg record), FormatError StreamHandler) ∧
     Handler_handle (colour_stream false s) asctime h record =
       Ok (ColourFilter_filter (colour_stream false s)
             (set_msg record (prefix +:+ msg record)),
           Wrote StreamHandler
             (format_left 23 asctime +:+ " | " +:+ format_center 8 (levelname record) +:+
              " | " +:+ prefix +:+ msg record))) ∧
  (∀ e b, str_mul __indentunit__ (__indentlevel__ s) = Raise e →
          Handler_handle (colour_stream b s) asctime h record = Raise e).
Proof.
  intros H1 H2 H3 H4 H5 Hlab Hshape. pose proof Hshape as (Hk & Hf & Hfmt).
  assert (∀ r, levelno r = levelno record →
               ColourFilter_filter (colour_stream true s) r = r) as Hid.
  { intros r Hr. unfold ColourFilter_filter. cbn [colour_stream set_colouredstream
      __colouredstream__]. rewrite Hr.
    rewrite (proj2 (Z.eqb_neq _ _) H1), (proj2 (Z.eqb_neq _ _) H2),
      (proj2 (Z.eqb_neq _ _) H3), (proj2 (Z.eqb_neq _ _) H4),
      (proj2 (Z.eqb_neq _ _) H5). reflexivity. }
  split; [apply Hid; reflexivity|]. split.
  - intros prefix Hp. split.
    + destruct (Handler_handle_stream_any (colour_stream true s) asctime h record prefix
                  Hshape Hp) as (ev & -> & -> & _).
      rewrite Hid by reflexivity.
      unfold stream_format. cbn [format field_value levellabel set_msg]. rewrite Hlab.
      reflexivity.
    + destruct (Handler_handle_stream_any (colour_stream false s) asctime h record prefix
                  Hshape Hp) as (ev & -> & -> & _).
      unfold ColourFilter_filter. simpl. rewrite append_nil_r. reflexivity.
  - intros e b Hp. apply Handler_handle_Raise; [left; exact Hshape | exact Hp].
Qed.

Lemma other_level_unlabelled_in_colour_witness :
  Handler_handle (colour_stream true initial_state) "T"
    (mkHandler StreamHandler logging.INFO [IndentFilter; ColourFilter]
       (Some stream_format))
    (mkRecord 25 "Level 25" "x" None None) =
  Ok (mkRecord 25 "Level 25" "x" None None, FormatError StreamHandler).
Proof.
  destruct (other_level_unlabelled_in_colour initial_state "T"
              (mkHandler StreamHandler logging.INFO [IndentFilter; ColourFilter]
                 (Some stream_format))
              (mkRecord 25 "Level 25" "x" None None))
    as (_ & H & _).
  - discriminate.
  - discriminate.
  - discriminate.
  - discriminate.
  - discriminate.
  - reflexivity.
  - repeat split.
  - destruct (H EmptyString eq_refl) as [Hon _]. exact Hon.
Defined.

(** ** The mute threshold *)

(** X12: after [mute(L)], in any state, a call at a severity of [L] or
    below writes nothing at all, on any channel; a call above [L] writes
    exactly what it writes once [unmute] has run.  [mute] and [unmute]
    write the threshold only, so the last of them decides. *)
Theorem mute_threshold_is_inclusive (L : Z) (s : state) (sev : severity)
  (m asctime : string) :
  ((levelno_of sev ≤ L)%Z → Logger_log sev m asctime (mute L s) = []) ∧
  ((L < levelno_of sev)%Z →
   Logger_log sev m asctime (mute L s) = Logger_log sev m asctime (unmute s)) ∧
  (∀ L', mute L (mute L' s) = mute L s) ∧
  unmute (mute L s) = unmute s ∧
  mute L (unmute s) = mute L s.
Proof.
  split; [apply mute_suppresses|]. split; [apply mute_passes|].
  repeat split.
Qed.

Lemma mute_threshold_is_inclusive_witness :
  Logger_log Error "boom" "T" (mute logging.ERROR initial_state) = [] ∧
  Logger_log Critical "boom" "T" (mute logging.ERROR initial_state) =
    Logger_log Critical "boom" "T" (unmute initial_state).
Proof.
  split.
  - apply (mute_threshold_is_inclusive logging.ERROR initial_state Error "boom" "T").
    vm_compute. discriminate.
  - apply (mute_threshold_is_inclusive logging.ERROR initial_state Critical "boom" "T").
    reflexivity.
Defined.

(** ** Indent directives *)

Lemma set_indentlevel_same (s : state) : set_indentlevel (__indentlevel__ s) s = s.
Proof. destruct s. reflexivity. Qed.

Lemma set_indentlevel_twice (a b : Z) (s : state) :
  set_indentlevel a (set_indentlevel b s) = set_indentlevel a s.
Proof. reflexivity. Qed.

Section Directives.

Context (can_open : string → bool).

(** X13: [k] directives ["+"] in a row raise the indent level by [k], and
    [k] directives ["-"] lower it by [k], below zero when it comes to
    that; they touch nothing but the indent level.  So ["+"] and ["-"]
    undo each other:
    [k] of the one followed by [k] of the other give the state back. *)
Theorem relative_indent_accumulates (k : nat) (s : state) :
  let up := run can_open (repeat (CallSetIndent (PyStr "+")) k) s in
  let down := run can_open (repeat (CallSetIndent (PyStr "-")) k) s in
  __indentlevel__ up = (__indentlevel__ s + Z.of_nat k)%Z ∧
  same_but_indent s up ∧
  __indentlevel__ down = (__indentlevel__ s - Z.of_nat k)%Z ∧
  same_but_indent s down ∧
  run can_open (repeat (CallSetIndent (PyStr "+")) k ++
                repeat (CallSetIndent (PyStr "-")) k) s = s ∧
  run can_open (repeat (CallSetIndent (PyStr "-")) k ++
                repeat (CallSetIndent (PyStr "+")) k) s = s.
Proof.
  intros up down. subst up down.
  assert (∀ k s, run can_open (repeat (CallSetIndent (PyStr "+")) k) s =
                 set_indentlevel (__indentlevel__ s + Z.of_nat k) s) as Hplus.
  { clear. induction k as [|k IH]; intros s.
    - simpl. rewrite Z.add_0_r, set_indentlevel_same. reflexivity.
    - change (run can_open (repeat (CallSetIndent (PyStr "+")) (S k)) s)
        with (run can_open (repeat (CallSetIndent (PyStr "+")) k)
                (set_indentlevel (__indentlevel__ s + 1) s)).
      rewrite IH, Nat2Z.inj_succ. unfold set_indentlevel.
      cbn [__indentlevel__ store next_ref __streamchannel__ __filechannel__
           __colouredstream__ logger_level logger_handlers manager_disable].
      f_equal. lia. }
  assert (∀ k s, run can_open (repeat (CallSetIndent (PyStr "-")) k) s =
                 set_indentlevel (__indentlevel__ s - Z.of_nat k) s) as Hminus.
  { clear. induction k as [|k IH]; intros s.
    - simpl. rewrite Z.sub_0_r, set_indentlevel_same. reflexivity.
    - change (run can_open (repeat (CallSetIndent (PyStr "-")) (S k)) s)
        with (run can_open (repeat (CallSetIndent (PyStr "-")) k)
                (set_indentlevel (__indentlevel__ s - 1) s)).
      rewrite IH, Nat2Z.inj_succ. unfold set_indentlevel.
      cbn [__indentlevel__ store next_ref __streamchannel__ __filechannel__
           __colouredstream__ logger_level logger_handlers manager_disable].
      f_equal. lia. }
  assert (∀ cs1 cs2 s0, run can_open (cs1 ++ cs2) s0 =
                        run can_open cs2 (run can_open cs1 s0)) as Happ.
  { clear. induction cs1 as [|c cs1 IH]; intros cs2 s0; [reflexivity|].
    simpl. apply IH. }
  split; [rewrite Hplus; reflexivity|].
  split; [rewrite Hplus; repeat split|].
  split; [rewrite Hminus; reflexivity|].
  split; [rewrite Hminus; repeat split|].
  split.
  - rewrite Happ, Hplus, Hminus. rewrite set_indentlevel_twice.
    cbn [__indentlevel__ set_indentlevel].
    replace (__indentlevel__ s + Z.of_nat k - Z.of_nat k)%Z with (__indentlevel__ s) by lia.
    apply set_indentlevel_same.
  - rewrite Happ, Hminus, Hplus. rewrite set_indentlevel_twice.
    cbn [__indentlevel__ set_indentlevel].
    replace (__indentlevel__ s - Z.of_nat k + Z.of_nat k)%Z with (__indentlevel__ s) by lia.
    apply set_indentlevel_same.
Qed.

End Directives.

Section EmitFrame.

Context (can_open : string → bool).


End EmitFrame.


(** ** Which handlers write *)

Lemma loop_sinks (s : state) (asctime : string) (refs : list nat) (record : LogRecord) :
  List.map event_sink (fst (callHandlers_loop s asctime refs record))
    `prefix_of` List.map h_kind (admitting s (levelno record) refs) ∧
  (snd (callHandlers_loop s asctime refs record) = None →
   List.map event_sink (fst (callHandlers_loop s asctime refs record)) =
   List.map h_kind (admitting s (levelno record) refs)).
Proof.
  revert record. induction refs as [|ref refs IH]; intros record.
  - split; [apply prefix_nil | reflexivity].
  - cbn [callHandlers_loop admitting flat_map].
    destruct (store s !! ref) as [h|]; [|apply IH].
    destruct (h_level h <=? levelno record)%Z; [|apply IH].
    destruct (Handler_handle s asctime h record) as [[record' ev]|x] eqn:Hh.
    + destruct (Handler_handle_sink _ _ _ _ _ _ Hh) as [Hno Hsink].
      destruct (IH record') as [IH1 IH2].
      destruct (callHandlers_loop s asctime refs record') as [evs e0].
      cbn [fst snd] in *. cbn [List.map app]. rewrite Hsink, <- Hno. split.
      * apply prefix_cons, IH1.
      * intros He0. rewrite (IH2 He0). reflexivity.
    + split; [apply prefix_nil | discriminate].
Qed.

(** X15: in any state, a call the logger lets through and that raises
    nothing makes one event for each attached handler whose level is at
    or below the severity, in the order of the handler list, and none for
    a handler whose level is above it.  A call that ends in an exception
    has made these events up to the handler that raised.  A call the
    logger does not let through (muted, or below its level) makes no
    event and raises nothing. *)
Theorem events_follow_admitting_handlers (s : state) (sev : severity) (m asctime : string) :
  (isEnabledFor s (levelno_of sev) = false → Logger_call sev m asctime s = ([], None)) ∧
  (isEnabledFor s (levelno_of sev) = true → logger_handlers s ≠ [] →
   List.map event_sink (Logger_log sev m asctime s)
     `prefix_of` List.map h_kind (admitting s (levelno_of sev) (logger_handlers s)) ∧
   (snd (Logger_call sev m asctime s) = None →
    List.map event_sink (Logger_log sev m asctime s) =
    List.map h_kind (admitting s (levelno_of sev) (logger_handlers s)))).
Proof.
  split.
  - intros H. unfold Logger_call. rewrite H. reflexivity.
  - intros H Hne. unfold Logger_log, Logger_call. rewrite H.
    rewrite (callHandlers_nonempty s asctime _ Hne).
    apply (loop_sinks s asctime (logger_handlers s) (makeRecord sev m)).
Qed.

Lemma events_follow_admitting_handlers_witness :
  let s := run (fun _ => true) [CallToFile "a.log" (Some logging.DEBUG)] initial_state in
  List.map event_sink (Logger_log Debug "x" "T" s) = [FileHandler "a.log"] ∧
  Logger_call Debug "x" "T" (mute logging.DEBUG s) = ([], None).
Proof.
  intros s. split.
  - destruct (events_follow_admitting_handlers s Debug "x" "T") as [_ H].
    destruct H as [_ H]; [reflexivity | discriminate |].
    rewrite H; [vm_compute; reflexivity | vm_compute; reflexivity].
  - apply (events_follow_admitting_handlers (mute logging.DEBUG s) Debug "x" "T").
    reflexivity.
Defined.

Section Fallback.

Context (can_open : string → bool).

(** X16: once both channels are removed the logger has no handler, and
    [logging.lastResort] takes over: a call at WARNING or above that the
    logger lets through writes the bare message to the standard error
    stream, with no time stamp, no label and no indentation; a call below
    WARNING writes nothing. *)
Theorem no_channel_falls_back_to_last_resort (cs : list call) (sev : severity)
  (m asctime : string) :
  let s := run can_open cs initial_state in
  __streamchannel__ s = None → __filechannel__ s = None →
  isEnabledFor s (levelno_of sev) = true →
  logger_handlers s = [] ∧
  Logger_log sev m asctime s =
    if (logging.WARNING <=? levelno_of sev)%Z then [Wrote StreamHandler m] else [].
Proof.
  intros s Hs Hf Hen. assert (registry_ok s) as Hok by apply reachable_ok.
  assert (logger_handlers s = []) as Hl.
  { destruct (logger_handlers s) as [|x l] eqn:Hl; [reflexivity|].
    assert (x ∈ logger_handlers s) as Hx by (rewrite Hl; apply elem_of_cons; tauto).
    apply (ok_attached s Hok) in Hx as [Hx | Hx]; congruence. }
  split; [exact Hl|].
  unfold Logger_log, Logger_call, callHandlers. rewrite Hen, Hl.
  change (h_level lastResort) with logging.WARNING.
  change (levelno (makeRecord sev m)) with (levelno_of sev).
  destruct (logging.WARNING <=? levelno_of sev)%Z; [|reflexivity].
  rewrite Handler_handle_lastResort. reflexivity.
Qed.


End Fallback.

Lemma no_channel_falls_back_to_last_resort_witness :
  let s := run (fun _ => true) [CallRemoveStream; CallSetIndent (PyInt 3)] initial_state in
  Logger_log Error "boom" "T" s = [Wrote StreamHandler "boom"].
Proof.
  intros s.
  destruct (no_channel_falls_back_to_last_resort (fun _ => true)
              [CallRemoveStream; CallSetIndent (PyInt 3)] Error "boom" "T")
    as [_ H]; [reflexivity | reflexivity | reflexivity |].
  exact H.
Defined.


(** ** Colour Mode and [to_stream] *)

Section ColourMode.

Context (can_open : string → bool).

(** X18: [to_stream] always writes Colour Mode, also when the stream
    channel is live and only its level is meant to change: whatever
    [colour_stream] had set before is overwritten by the [colour] argument
    (true when the argument is left out).  Apart from the flag, the state
    [to_stream] leaves does not depend on the flag, so [colour_stream]
    after [to_stream] gives what [to_stream] with that colour gives. *)
Theorem to_stream_overrides_colour (cs : list call) (lvl : option Z) (b c : bool) :
  let s := run can_open cs initial_state in
  __colouredstream__ (to_stream lvl c (colour_stream b s)) = c ∧
  to_stream lvl c (colour_stream b s) = to_stream lvl c s ∧
  colour_stream c (to_stream lvl b s) = to_stream lvl c s.
Proof.
  intros s. assert (registry_ok s) as Hok by apply reachable_ok.
  assert (registry_ok (colour_stream b s)) as Hokb
    by (apply (registry_ok_same s); try reflexivity; exact Hok).
  destruct (__streamchannel__ s) as [ref|] eqn:Hc.
  - rewrite (to_stream_present (colour_stream b s) ref lvl c Hc).
    rewrite !(to_stream_present s ref lvl _ Hc). repeat split.
  - rewrite (to_stream_absent (colour_stream b s) lvl c Hc (registry_ok_fresh _ Hokb)).
    rewrite !(to_stream_absent s lvl _ Hc (registry_ok_fresh s Hok)). repeat split.
Qed.

End ColourMode.
